(** * Schemey: the lexer and the builtin procedures

  A shallow embedding of [src/lexer.py] and [src/_builtins.py], and the
  properties of the tokenizer and of the builtin procedure table that the
  design document states.

  Python integers are unbounded, so they are [Z]; a Python [str] is a
  sequence of characters, here [list ascii] for the input buffer (code
  points 0..255) and [string] for names and messages.  An exception is an
  explicit outcome of type [Result]. *)

From Stdlib Require Import List String Ascii ZArith Bool Arith Lia DecimalString.
Import ListNotations.

Local Open Scope list_scope.

(** ** The fragment of the host language the builtins run on *)

Module Py.

(** The raw Python values that sit in the [value] attribute of an
    expression object. *)
Inductive PyVal :=
| PyInt (z : Z)
| PyBool (b : bool)
| PyStr (s : string).

(** The exceptions the code can end in.  [ProcedureError] is the one
    class [_builtins.py] declares; the others are Python's own. *)
Inductive Exn :=
| ProcedureError (msg : string)
| StopIteration
| ZeroDivisionError
| TypeError
| AttributeError.

(** The outcome of a call: a value, an exception, or a behaviour of
    Python that this development does not describe (printf-style
    formatting, [str % x] with a conversion specifier in [str]). *)
Inductive Result (A : Type) :=
| Return (a : A)
| Raise (e : Exn)
| Unmodelled.
Arguments Return {A} a.
Arguments Raise {A} e.
Arguments Unmodelled {A}.

Definition bind {A B} (r : Result A) (k : A -> Result B) : Result B :=
  match r with
  | Return a => k a
  | Raise e => Raise e
  | Unmodelled => Unmodelled
  end.

Definition is_ProcedureError {A} (r : Result A) : bool :=
  match r with
  | Raise (ProcedureError _) => true
  | _ => false
  end.

(** [bool] is a subclass of [int]: [True] counts as 1 and [False] as 0. *)
Definition as_int (v : PyVal) : option Z :=
  match v with
  | PyInt z => Some z
  | PyBool b => Some (if b then 1%Z else 0%Z)
  | PyStr _ => None
  end.

(** Truth value of an object in an [if]. *)
Definition truthy (v : PyVal) : bool :=
  match v with
  | PyInt z => negb (z =? 0)%Z
  | PyBool b => b
  | PyStr s => negb (String.eqb s EmptyString)
  end.

(** [s * n] for a string: [n] copies, none when [n <= 0]. *)
Fixpoint str_repeat (s : string) (n : nat) : string :=
  match n with
  | O => EmptyString
  | S n' => String.append s (str_repeat s n')
  end.

Definition num_binop (f : Z -> Z -> Z) (a b : PyVal) : Result PyVal :=
  match as_int a, as_int b with
  | Some x, Some y => Return (PyInt (f x y))
  | _, _ => Raise TypeError
  end.

(** [operator.add] *)
Definition op_add (a b : PyVal) : Result PyVal :=
  match a, b with
  | PyStr s, PyStr t => Return (PyStr (String.append s t))
  | _, _ => num_binop Z.add a b
  end.

(** [operator.sub] *)
Definition op_sub (a b : PyVal) : Result PyVal := num_binop Z.sub a b.

(** [operator.mul] *)
Definition op_mul (a b : PyVal) : Result PyVal :=
  match a, b with
  | PyStr s, PyStr _ => Raise TypeError
  | PyStr s, n | n, PyStr s =>
      match as_int n with
      | Some k => Return (PyStr (str_repeat s (Z.to_nat k)))
      | None => Raise TypeError
      end
  | _, _ => num_binop Z.mul a b
  end.

(** [operator.eq]: never raises; a string and a number are unequal. *)
Definition op_eq (a b : PyVal) : Result PyVal :=
  match as_int a, as_int b with
  | Some x, Some y => Return (PyBool (x =? y)%Z)
  | None, None =>
      match a, b with
      | PyStr s, PyStr t => Return (PyBool (String.eqb s t))
      | _, _ => Return (PyBool false)
      end
  | _, _ => Return (PyBool false)
  end.

(** The ordering operators: numbers with numbers, strings with strings
    (by code point), anything else is a [TypeError]. *)
Definition ord_op (fz : Z -> Z -> bool) (fs : string -> string -> bool)
           (a b : PyVal) : Result PyVal :=
  match a, b with
  | PyStr s, PyStr t => Return (PyBool (fs s t))
  | _, _ =>
      match as_int a, as_int b with
      | Some x, Some y => Return (PyBool (fz x y))
      | _, _ => Raise TypeError
      end
  end.

Definition op_gt := ord_op Z.gtb (fun s t => String.ltb t s).
Definition op_lt := ord_op Z.ltb String.ltb.
Definition op_ge := ord_op Z.geb (fun s t => String.leb t s).
Definition op_le := ord_op Z.leb String.leb.

(** [operator.floordiv], Python's [//]: rounds towards minus infinity,
    as [Z.div] does. *)
Definition op_floordiv (a b : PyVal) : Result PyVal :=
  match as_int a, as_int b with
  | Some x, Some y =>
      if (y =? 0)%Z then Raise ZeroDivisionError else Return (PyInt (x / y))
  | _, _ => Raise TypeError
  end.

Definition has_percent (s : string) : bool :=
  existsb (Ascii.eqb "%"%char) (list_ascii_of_string s).

(** [operator.mod], Python's [%]: the result has the sign of the divisor,
    as [Z.modulo] does.  On a string it is formatting: without a
    conversion specifier the argument is left over, a [TypeError]. *)
Definition op_mod (a b : PyVal) : Result PyVal :=
  match a with
  | PyStr s => if has_percent s then Unmodelled else Raise TypeError
  | _ =>
      match as_int a, as_int b with
      | Some x, Some y =>
          if (y =? 0)%Z then Raise ZeroDivisionError
          else Return (PyInt (x mod y))
      | _, _ => Raise TypeError
      end
  end.

(** [+x], [-x] and the identity, the three unary functions of the table. *)
Definition un_pos (x : PyVal) : Result PyVal :=
  match as_int x with
  | Some z => Return (PyInt z)
  | None => Raise TypeError
  end.

Definition un_neg (x : PyVal) : Result PyVal :=
  match as_int x with
  | Some z => Return (PyInt (- z))
  | None => Raise TypeError
  end.

Definition un_id (x : PyVal) : Result PyVal := Return x.

(** [functools.reduce(f, xs)] without an initial value. *)
Fixpoint reduce_from (f : PyVal -> PyVal -> Result PyVal)
         (acc : PyVal) (xs : list PyVal) : Result PyVal :=
  match xs with
  | [] => Return acc
  | x :: xs' => bind (f acc x) (fun acc' => reduce_from f acc' xs')
  end.

Definition reduce (f : PyVal -> PyVal -> Result PyVal)
           (xs : list PyVal) : Result PyVal :=
  match xs with
  | [] => Raise TypeError
  | x :: xs' => reduce_from f x xs'
  end.

(** [str(n)] of a count. *)
Definition str_of_nat (n : nat) : string :=
  NilEmpty.string_of_uint (Nat.to_uint n).

End Py.

Declare Scope py_scope.
Delimit Scope py_scope with py.
Notation "x <- c ;; k" := (Py.bind c (fun x => k))
(at level 61, c at next level, right associativity) : py_scope.
Notation "c ;;; k" := (Py.bind c (fun _ => k))
(at level 61, right associativity) : py_scope.

(** ** The builtin procedures, [src/_builtins.py] *)

Module Builtins.
Import Py.
Local Open Scope py_scope.

(** Modelled from the spec: the expression classes of [expressions.py],
    which is not among the sources.  The design document gives the
    variants and their fields; [Number] keeps whatever raw value the code
    stores in it (a well-formed number holds a [PyInt]).  [NoneObj] is not
    an expression class: it is Python's [None], which [builtin_car] and
    [builtin_cdr] test the [first] slot against with [is None]. *)
Inductive Value :=
| Number (value : PyVal)
| Boolean (value : bool)
| String (value : string)
| Symbol (name : string)
| Pair (first second : Value)
| Nil
| NoneObj.

(** The classes [isinstance] is asked about. *)
Inductive Class := CNumber | CBoolean | CString | CSymbol | CPair | CNil.

Definition isinstance (obj : Value) (c : Class) : bool :=
  match obj, c with
  | Number _, CNumber | Boolean _, CBoolean | String _, CString
  | Symbol _, CSymbol | Pair _ _, CPair | Nil, CNil => true
  | _, _ => false
  end.

(** [obj is None] *)
Definition is_None (obj : Value) : bool :=
  match obj with
  | NoneObj => true
  | _ => false
  end.

(** [obj.value]: numbers, booleans and strings carry the attribute. *)
Definition get_value (obj : Value) : Result PyVal :=
  match obj with
  | Number v => Return v
  | Boolean b => Return (PyBool b)
  | String s => Return (PyStr s)
  | _ => Raise AttributeError
  end.

(** Modelled from the spec: [==] of an expression object with a
    [Boolean] literal, by the structural equality the design document
    gives to [Boolean] ([expressions.py] is not among the sources). *)
Definition eq_Boolean (el : Value) (b : bool) : bool :=
  match el with
  | Boolean v => Bool.eqb v b
  | _ => false
  end.

(** A Python function of the module: its declared parameters and what a
    call with a tuple of arguments does. *)
Inductive Params := Fixed (n : nat) | Positional.

Record PyFunc := {
  params : Params;
  call : list Value -> Result Value
}.

(** Modelled from the spec: [utils.get_number_of_params], which is not
    among the sources: the count of declared parameters, or the marker
    ['positional'] for a function declared with a starred parameter. *)
Definition get_number_of_params (f : PyFunc) : Params := params f.

(** [def f(a)] and [def f(a, b)]: a call with another number of
    arguments is Python's own [TypeError]. *)
Definition def1 (body : Value -> Result Value) : PyFunc :=
  {| params := Fixed 1;
     call := fun args => match args with
                         | [a] => body a
                         | _ => Raise TypeError
                         end |}.

Definition def2 (body : Value -> Value -> Result Value) : PyFunc :=
  {| params := Fixed 2;
     call := fun args => match args with
                         | [a; b] => body a b
                         | _ => Raise TypeError
                         end |}.

(** a function declared with a starred parameter *)
Definition def_star (body : list Value -> Result Value) : PyFunc :=
  {| params := Positional; call := body |}.

(** *** class Procedure *)

Record Procedure := {
  name : string;
  builtin_proc : PyFunc
}.

Definition dquote : string := String.String (ascii_of_nat 34) EmptyString.

(** The message of the arity error of [apply]. *)
Definition arity_message (nm : string) (argc len : nat) : string :=
  String.concat EmptyString
    ["Procedure "%string; dquote; nm; dquote; " expected "%string;
     str_of_nat argc; " argument(s). Got "%string; str_of_nat len;
     " instead"%string].

Definition apply (self : Procedure) (args : list Value) : Result Value :=
  match get_number_of_params (builtin_proc self) with
  | Fixed argc =>
      if negb (argc =? List.length args)
      then Raise (ProcedureError (arity_message (name self) argc (List.length args)))
      else call (builtin_proc self) args
  | Positional => call (builtin_proc self) args
  end.

(** *** check_type *)

(** What [check_type] is handed: one object, or the tuple of the
    arguments of a starred-parameter function. *)
Inductive Objs := One (obj : Value) | Tuple (objs : list Value).

Definition check_type (expected_type : Class) (objs : Objs) (msg : string)
  : Result unit :=
  let objs := match objs with
              | Tuple t => t
              | One obj => [obj]
              end in
  if existsb (fun obj => negb (isinstance obj expected_type)) objs
  then Raise (ProcedureError msg)
  else Return tt.

(** *** Arithmetic and comparison *)

Fixpoint values (args : list Value) : Result (list PyVal) :=
  match args with
  | [] => Return []
  | el :: rest =>
      v <- get_value el;; vs <- values rest;; Return (v :: vs)
  end.

Definition arith_op (op_func : PyVal -> PyVal -> Result PyVal)
           (unary_func : PyVal -> Result PyVal) : PyFunc :=
  def_star (fun args =>
    if List.length args =? 1 then
      match args with
      | a0 :: _ => x <- get_value a0;; r <- unary_func x;; Return (Number r)
      | [] => Raise TypeError
      end
    else
      check_type CNumber (Tuple args) "Expected numbers only";;;
      vs <- values args;;
      r <- reduce op_func vs;;
      Return (Number r)).

(** The [for element in it] loop of [comp_op], [value] being the
    element before. *)
Fixpoint comp_loop (op_func : PyVal -> PyVal -> Result PyVal)
         (value : Value) (it : list Value) : Result Value :=
  match it with
  | [] => Return (Boolean true)
  | element :: it' =>
      a <- get_value value;;
      b <- get_value element;;
      r <- op_func a b;;
      if truthy r then comp_loop op_func element it'
      else Return (Boolean false)
  end.

Definition comp_op (op_func : PyVal -> PyVal -> Result PyVal) : PyFunc :=
  def_star (fun args =>
    match args with
    | [] => Raise StopIteration
    | value :: it => comp_loop op_func value it
    end).

(** *** Pairs *)

Definition builtin_car : PyFunc :=
  def1 (fun pair =>
    check_type CPair (One pair) "Expected pair or list.";;;
    match pair with
    | Pair first _ =>
        if is_None first
        then Raise (ProcedureError "attempted car on empty list")
        else Return first
    | _ => Raise AttributeError
    end).

Definition builtin_cdr : PyFunc :=
  def1 (fun pair =>
    check_type CPair (One pair) "Expected pair or list.";;;
    match pair with
    | Pair first second =>
        if is_None first
        then Raise (ProcedureError "attempted cdr on empty list")
        else Return second
    | _ => Raise AttributeError
    end).

Definition builtin_cons : PyFunc :=
  def2 (fun obj1 obj2 => Return (Pair obj1 obj2)).

Definition builtin_list : PyFunc :=
  def_star (fun args =>
    Return (fold_left (fun pair el => Pair el pair) (rev args) Nil)).

(** *** Logic *)

(** The [for el in args] loop of [builtin_and] and [builtin_or]: the
    element the loop returns at, the first one equal to [Boolean(b)]. *)
Fixpoint first_equal (b : bool) (args : list Value) : option Value :=
  match args with
  | [] => None
  | el :: rest => if eq_Boolean el b then Some el else first_equal b rest
  end.

(** [args[-1]] of a tuple that is not empty. *)
Definition last_item (args : list Value) : Result Value :=
  match nth_error args (List.length args - 1) with
  | Some el => Return el
  | None => Raise TypeError
  end.

Definition builtin_and : PyFunc :=
  def_star (fun args =>
    match first_equal false args with
    | Some el => Return el
    | None =>
        if 0 <? List.length args then last_item args
        else Return (Boolean true)
    end).

Definition builtin_or : PyFunc :=
  def_star (fun args =>
    match first_equal true args with
    | Some el => Return el
    | None =>
        if 0 <? List.length args then last_item args
        else Return (Boolean false)
    end).

Definition builtin_not : PyFunc :=
  def1 (fun obj =>
    if isinstance obj CBoolean && eq_Boolean obj false
    then Return (Boolean true) else Return (Boolean false)).

(** *** quotient and modulo *)

Definition builtin_quotient : PyFunc :=
  def2 (fun a b =>
    x <- get_value a;; y <- get_value b;; r <- op_floordiv x y;;
    Return (Number r)).

Definition builtin_mod : PyFunc :=
  def2 (fun a b =>
    x <- get_value a;; y <- get_value b;; r <- op_mod x y;;
    Return (Number r)).

(** *** Type predicates and the rest of the table *)

Definition builtin_is (c : Class) : PyFunc :=
  def1 (fun obj => Return (Boolean (isinstance obj c))).

Definition builtin_is_zero : PyFunc :=
  def1 (fun number =>
    x <- get_value number;; r <- op_eq x (PyInt 0);;
    Return (Boolean (truthy r))).

(** [pair.second.first]: an attribute read on an object that is not a
    pair is an [AttributeError]. *)
Definition get_first (obj : Value) : Result Value :=
  match obj with
  | Pair first _ => Return first
  | _ => Raise AttributeError
  end.

Definition get_second (obj : Value) : Result Value :=
  match obj with
  | Pair _ second => Return second
  | _ => Raise AttributeError
  end.

Definition builtin_cadr : PyFunc :=
  def1 (fun pair =>
    check_type CPair (One pair) "Expected pair of list";;;
    s <- get_second pair;; f <- get_first s;;
    if is_None f then Raise (ProcedureError "attempted cadr on empty list")
    else Return f).

Definition builtin_caddr : PyFunc :=
  def1 (fun pair =>
    check_type CPair (One pair) "Expected pair of list";;;
    s <- get_second pair;; ss <- get_second s;; f <- get_first ss;;
    if is_None f then Raise (ProcedureError "attempted caddr on empty list")
    else Return f).

Definition builtin_string_length : PyFunc :=
  def1 (fun string =>
    check_type CString (One string) "Expected string.";;;
    match string with
    | String s => Return (Number (PyInt (Z.of_nat (String.length s))))
    | _ => Raise AttributeError
    end).

(** The keys of [builtin_map], in the order of the source. *)
Definition builtin_map_keys : list string :=
  ["eq?"; "eqv?"; "pair?"; "zero?"; "boolean?"; "symbol?"; "number?";
   "null?"; "string?"; "+"; "-"; "*"; "quotient"; "modulo";
   "="; ">"; "<"; ">="; "<="; "and"; "or"; "not";
   "list"; "cons"; "car"; "cdr"; "cadr"; "caddr"; "set-car!"; "set-cdr!";
   "string-length"]%string.

(** [builtin_map], without the four entries that read or write the
    identity of a pair ([eq?], [eqv?], [set-car!], [set-cdr!]): they need
    a store of shared pairs, which nothing below depends on. *)
Definition builtin_map : list (string * PyFunc) :=
  [("pair?", builtin_is CPair); ("zero?", builtin_is_zero);
   ("boolean?", builtin_is CBoolean); ("symbol?", builtin_is CSymbol);
   ("number?", builtin_is CNumber); ("null?", builtin_is CNil);
   ("string?", builtin_is CString);
   ("+", arith_op op_add un_pos); ("-", arith_op op_sub un_neg);
   ("*", arith_op op_mul un_id);
   ("quotient", builtin_quotient); ("modulo", builtin_mod);
   ("=", comp_op op_eq); (">", comp_op op_gt); ("<", comp_op op_lt);
   (">=", comp_op op_ge); ("<=", comp_op op_le);
   ("and", builtin_and); ("or", builtin_or); ("not", builtin_not);
   ("list", builtin_list); ("cons", builtin_cons);
   ("car", builtin_car); ("cdr", builtin_cdr);
   ("cadr", builtin_cadr); ("caddr", builtin_caddr);
   ("string-length", builtin_string_length)]%string.

Fixpoint lookup (nm : string) (m : list (string * PyFunc)) : option PyFunc :=
  match m with
  | [] => None
  | (k, f) :: m' => if String.eqb k nm then Some f else lookup nm m'
  end.

(** The procedure registered under a name: [Procedure(name, builtin_map[name])]. *)
Definition registered (nm : string) : option Procedure :=
  option_map (fun f => {| name := nm; builtin_proc := f |})
             (lookup nm builtin_map).

(** The names of the comparison builtins. *)
Definition comparison_names : list string := ["="; ">"; "<"; ">="; "<="]%string.

End Builtins.

(** ** The tokenizer, [src/lexer.py] *)

Declare Scope lex_scope.
Delimit Scope lex_scope with lex.

Module Lexer.

(** A loop of the lexer runs on fuel; [None] is a loop that ran out of
    it.  [next_token] hands every loop more fuel than the buffer has
    characters, and [next_token_returns] below shows that this is enough. *)
Definition obind {A B} (o : option A) (k : A -> option B) : option B :=
  match o with
  | Some a => k a
  | None => None
  end.

Notation "x <- c ;; k" := (obind c (fun x => k))
  (at level 61, c at next level, right associativity) : lex_scope.
Local Open Scope lex_scope.

Definition ADDITIONAL_BUILTIN_CHARS : list ascii := ["?"; "!"; "."]%char.
Definition GARBAGE_CHARS : list ascii := [" "; "010"; "009"; "013"]%char.
Definition TRUE_OR_FALSE_CHARS : list ascii := ["t"; "f"]%char.
Definition COMMENT_CHAR : ascii := ";"%char.

(** [char in S] for a set of characters; [None] is in no set. *)
Definition char_in (char : option ascii) (S : list ascii) : bool :=
  match char with
  | Some c => existsb (Ascii.eqb c) S
  | None => false
  end.

(** [char == c] *)
Definition char_is (char : option ascii) (c : ascii) : bool :=
  match char with
  | Some c' => Ascii.eqb c' c
  | None => false
  end.

Definition between (lo n hi : nat) : bool := (lo <=? n) && (n <=? hi).

(** [str.isdigit] on the code points 0..255: the ten digits and the
    superscripts two, three and one. *)
Definition isdigit (char : ascii) : bool :=
  let n := nat_of_ascii char in
  between 48 n 57 || (n =? 178) || (n =? 179) || (n =? 185).

(** [str.isalnum] on the code points 0..255: digits, letters, and the
    Latin-1 letters and numerics. *)
Definition isalnum (char : ascii) : bool :=
  let n := nat_of_ascii char in
  isdigit char || between 65 n 90 || between 97 n 122
  || (n =? 170) || (n =? 181) || (n =? 186) || between 188 n 190
  || between 192 n 214 || between 216 n 246 || between 248 n 255.

(** [char in builtin_map.keys()]: the one-character string is a key. *)
Definition is_builtin_name (char : ascii) : bool :=
  existsb (String.eqb (String.String char EmptyString))
          Builtins.builtin_map_keys.

Definition is_identifier (char : ascii) : bool :=
  isalnum char || is_builtin_name char
  || existsb (Ascii.eqb char) ADDITIONAL_BUILTIN_CHARS.

Inductive TokenTypes :=
| BOOLEAN | STRING | NUMBER | IDENTIFIER | LPAREN | RPAREN | QUOTE.

(** What a method of the lexer hands back: a [Token], an [Error] tuple,
    [None] at the end of the buffer; [IndexError] is the exception of
    [self.buffer[self.pos]] past the end. *)
Inductive Returned :=
| Token (token_type : TokenTypes) (val : list ascii) (pos : nat)
| Error (pos : nat)
| PyNone
| IndexError.

Record Lexer := {
  buffer : list ascii;
  pos : nat
}.

(** [Lexer(buffer)] *)
Definition init (buffer : list ascii) : Lexer :=
  {| buffer := buffer; pos := 0 |}.

(** [self.pos = p] *)
Definition set_pos (self : Lexer) (p : nat) : Lexer :=
  {| buffer := buffer self; pos := p |}.

(** [self.buffer[a:b]] *)
Definition slice (self : Lexer) (a b : nat) : list ascii :=
  firstn (b - a) (skipn a (buffer self)).

(** [p or self.pos] picks [self.pos] when [p] is [None] and also when it
    is 0. *)
Definition _get_char (self : Lexer) (p : option nat) : option ascii :=
  let offset := match p with
                | Some (S n) => S n
                | Some O | None => pos self
                end in
  nth_error (buffer self) offset.

Fixpoint _skip_whitespace (fuel : nat) (self : Lexer) : option Lexer :=
  match fuel with
  | O => None
  | S fuel' =>
      match _get_char self None with
      | Some c =>
          if char_in (Some c) GARBAGE_CHARS
          then _skip_whitespace fuel' (set_pos self (pos self + 1))
          else Some self
      | None => Some self
      end
  end.

Fixpoint comment_loop (fuel : nat) (self : Lexer) : option Lexer :=
  match fuel with
  | O => None
  | S fuel' =>
      match _get_char self None with
      | Some c =>
          if negb (Ascii.eqb c "010")
          then comment_loop fuel' (set_pos self (pos self + 1))
          else Some self
      | None => Some self
      end
  end.

Definition _skip_comments (fuel : nat) (self : Lexer) : option Lexer :=
  if char_is (_get_char self None) COMMENT_CHAR
  then comment_loop fuel self
  else Some self.

Definition _process_boolean (self : Lexer) : Returned * Lexer :=
  let retval := Token BOOLEAN (slice self (pos self) (pos self + 2)) (pos self) in
  (retval, set_pos self (pos self + 2)).

Fixpoint number_loop (fuel : nat) (self : Lexer) (endpos : nat) : option nat :=
  match fuel with
  | O => None
  | S fuel' =>
      match _get_char self (Some endpos) with
      | Some c =>
          if isdigit c then number_loop fuel' self (endpos + 1)
          else Some endpos
      | None => Some endpos
      end
  end.

Definition _process_number (fuel : nat) (self : Lexer)
  : option (Returned * Lexer) :=
  endpos <- number_loop fuel self (pos self + 1);;
  let retval := Token NUMBER (slice self (pos self) endpos) (pos self) in
  Some (retval, set_pos self endpos).

(** The loop of [_process_string]: the position of the closing quote, or
    nothing when the buffer or the line ends first. *)
Fixpoint string_loop (fuel : nat) (self : Lexer) (endpos : nat)
  : option (option nat) :=
  match fuel with
  | O => None
  | S fuel' =>
      if negb (char_is (_get_char self (Some endpos)) "034") then
        match _get_char self (Some endpos) with
        | None => Some None
        | Some c =>
            if Ascii.eqb c "010" then Some None
            else string_loop fuel' self (endpos + 1)
        end
      else Some (Some endpos)
  end.

Definition _process_string (fuel : nat) (self : Lexer)
  : option (Returned * Lexer) :=
  r <- string_loop fuel self (pos self + 1);;
  match r with
  | None => Some (Error (pos self), self)
  | Some endpos =>
      let retval := Token STRING (slice self (pos self + 1) endpos) (pos self) in
      Some (retval, set_pos self (endpos + 1))
  end.

Fixpoint identifier_loop (fuel : nat) (self : Lexer) (endpos : nat)
  : option nat :=
  match fuel with
  | O => None
  | S fuel' =>
      match _get_char self (Some endpos) with
      | Some c =>
          if is_identifier c then identifier_loop fuel' self (endpos + 1)
          else Some endpos
      | None => Some endpos
      end
  end.

Definition _process_identifier (fuel : nat) (self : Lexer)
  : option (Returned * Lexer) :=
  endpos <- identifier_loop fuel self (pos self + 1);;
  let retval := Token IDENTIFIER (slice self (pos self) endpos) (pos self) in
  Some (retval, set_pos self endpos).

(** [_process_lparen], [_process_rparen] and [_process_quote] differ in
    the token type only. *)
Definition process_single (ty : TokenTypes) (self : Lexer)
  : Returned * Lexer :=
  match nth_error (buffer self) (pos self) with
  | Some c => (Token ty [c] (pos self), set_pos self (pos self + 1))
  | None => (IndexError, self)
  end.

Definition _process_lparen := process_single LPAREN.
Definition _process_rparen := process_single RPAREN.
Definition _process_quote := process_single QUOTE.

(** The [while] loop at the head of [next_token]: the lexer after it. *)
Fixpoint skip_garbage (fuel inner : nat) (self : Lexer) : option Lexer :=
  match fuel with
  | O => None
  | S fuel' =>
      let char := _get_char self None in
      if char_in char GARBAGE_CHARS || char_is char COMMENT_CHAR then
        self1 <- _skip_comments inner self;;
        self2 <- _skip_whitespace inner self1;;
        skip_garbage fuel' inner self2
      else Some self
  end.

Definition next_token_fuel (fuel : nat) (self : Lexer)
  : option (Returned * Lexer) :=
  self <- skip_garbage fuel fuel self;;
  match _get_char self None with
  | None => Some (PyNone, self)
  | Some char =>
      if Ascii.eqb char "#"
         && char_in (_get_char self (Some (pos self + 1))) TRUE_OR_FALSE_CHARS
      then Some (_process_boolean self)
      else if isdigit char then _process_number fuel self
      else if Ascii.eqb char "034" then _process_string fuel self
      else if is_identifier char then _process_identifier fuel self
      else if Ascii.eqb char "(" then Some (_process_lparen self)
      else if Ascii.eqb char ")" then Some (_process_rparen self)
      else if Ascii.eqb char "'" then Some (_process_quote self)
      else Some (Error (pos self), self)
  end.

(** One more unit of fuel than the buffer has characters: every loop
    moves forward by one character at each turn. *)
Definition next_token (self : Lexer) : option (Returned * Lexer) :=
  next_token_fuel (S (List.length (buffer self))) self.

(** The buffer of a string literal. *)
Definition lexer_of (s : string) : Lexer := init (list_ascii_of_string s).

End Lexer.

(** ** What the design document says, in its own words

  The definitions of this module follow the text of the design document,
  not the code; the theorems below compare the code with them. *)

Module Design.
Import Py Builtins.

(** A well-formed number. *)
Definition Num (z : Z) : Value := Number (PyInt z).

(** "The chain holds only if every adjacent pair satisfies the
    operator." *)
Fixpoint chain_holds (rel : Z -> Z -> bool) (zs : list Z) : bool :=
  match zs with
  | [] => true
  | a :: rest =>
      match rest with
      | [] => true
      | b :: _ => rel a b && chain_holds rel rest
      end
  end.

(** The comparison builtins and the relation each one stands for. *)
Definition comparison_relations : list (string * (Z -> Z -> bool)) :=
  [("=", Z.eqb); (">", Z.gtb); ("<", Z.ltb); (">=", Z.geb); ("<=", Z.leb)]%string.

(** "Returns the first value that is exactly [Boolean(stop)], or the
    last argument if none is, or [Boolean(not stop)] if called with zero
    arguments": [stop] is false for [and] and true for [or]. *)
Definition first_or_last (stop : bool) (args : list Value) : Value :=
  match find (fun el => eq_Boolean el stop) args with
  | Some el => el
  | None => last args (Boolean (negb stop))
  end.

(** The outcome of applying the procedure registered under a name. *)
Definition apply_builtin (nm : string) (args : list Value)
  : option (Result Value) :=
  option_map (fun p => apply p args) (registered nm).

(** "A maximal run" of characters of one class: how many characters at
    the head of [l] satisfy [P]. *)
Fixpoint maximal_run (P : ascii -> bool) (l : list ascii) : nat :=
  match l with
  | [] => 0
  | c :: l' => if P c then S (maximal_run P l') else 0
  end.

(** The characters of the buffer a token stands for: its text, and the
    two delimiting quotes for a string. *)
Definition token_span (ty : Lexer.TokenTypes) (val : list ascii) : nat :=
  match ty with
  | Lexer.STRING => List.length val + 2
  | _ => List.length val
  end.

(** A character that neither closes a string nor ends its line. *)
Definition inside_string (c : ascii) : bool :=
  negb (Ascii.eqb c "034") && negb (Ascii.eqb c "010").

(** The blank characters, and the characters of a comment. *)
Definition is_garbage (c : ascii) : bool :=
  Lexer.char_in (Some c) Lexer.GARBAGE_CHARS.

Definition not_newline (c : ascii) : bool := negb (Ascii.eqb c "010").

(** Where a call of [next_token] that started at [s] and returned [r]
    leaves the cursor: just after the token; at the position of the
    error; at or past the end of the buffer when the input has ended. *)
Definition cursor_after (s : Lexer.Lexer) (r : Lexer.Returned)
           (s' : Lexer.Lexer) : Prop :=
  match r with
  | Lexer.Token ty val p =>
      Lexer.pos s <= p
      /\ 1 <= token_span ty val
      /\ Lexer.pos s' = p + token_span ty val
      /\ Lexer.pos s' <= List.length (Lexer.buffer s)
  | Lexer.Error p => Lexer.pos s <= p /\ Lexer.pos s' = p
  | Lexer.PyNone => List.length (Lexer.buffer s) <= Lexer.pos s'
  | Lexer.IndexError => False
  end.

End Design.

(** ** The tokenizer without its loops *)

Module Munch.
Import Lexer Design.

(** What [next_token] returns at a lexer whose cursor is past the blanks
    and comments, each loop of a [_process_] method written as the maximal
    run it walks over. *)
Definition token_at (s : Lexer) : Returned * Lexer :=
  let p := pos s in
  match nth_error (buffer s) p with
  | None => (PyNone, s)
  | Some c =>
      if Ascii.eqb c "#"
         && char_in (nth_error (buffer s) (p + 1)) TRUE_OR_FALSE_CHARS
      then (Token BOOLEAN (slice s p (p + 2)) p, set_pos s (p + 2))
      else if isdigit c then
        let e := p + 1 + maximal_run isdigit (skipn (p + 1) (buffer s)) in
        (Token NUMBER (slice s p e) p, set_pos s e)
      else if Ascii.eqb c "034" then
        let e := p + 1 + maximal_run inside_string (skipn (p + 1) (buffer s)) in
        if char_is (nth_error (buffer s) e) "034"
        then (Token STRING (slice s (p + 1) e) p, set_pos s (e + 1))
        else (Error p, s)
      else if is_identifier c then
        let e := p + 1 + maximal_run is_identifier (skipn (p + 1) (buffer s)) in
        (Token IDENTIFIER (slice s p e) p, set_pos s e)
      else if Ascii.eqb c "(" then (Token LPAREN [c] p, set_pos s (p + 1))
      else if Ascii.eqb c ")" then (Token RPAREN [c] p, set_pos s (p + 1))
      else if Ascii.eqb c "'" then (Token QUOTE [c] p, set_pos s (p + 1))
      else (Error p, s)
  end.

(** The character at the cursor is one the first loop of [next_token]
    skips: a blank or the start of a comment. *)
Definition skippable (s : Lexer) : bool :=
  char_in (_get_char s None) GARBAGE_CHARS
  || char_is (_get_char s None) COMMENT_CHAR.

(** One turn of the first loop of [next_token]: [_skip_comments], then
    [_skip_whitespace]. *)
Definition skip_turn (inner : nat) (s : Lexer) : option Lexer :=
  (self1 <- _skip_comments inner s;; _skip_whitespace inner self1)%lex.

(** A character at which no rule of [next_token] applies, the boolean
    rule left aside: not a digit, not a quote, not an identifier
    character, not a parenthesis and not an apostrophe. *)
Definition starts_no_token (c : ascii) : bool :=
  negb (isdigit c) && negb (is_identifier c)
  && negb (Ascii.eqb c "(") && negb (Ascii.eqb c ")")
  && negb (Ascii.eqb c "'").

(** The characters of the buffer from [a] up to [b]. *)
Definition between_chars (s : Lexer) (a b : nat) : list ascii :=
  firstn (b - a) (skipn a (buffer s)).

(** The calls of [next_token] one after the other, until the end of the
    input or an [Error], at most [n] of them: the tokens in order, and how
    the sequence ended. *)
Fixpoint tokens (n : nat) (s : Lexer) : list Returned :=
  match n with
  | O => []
  | S n' =>
      match next_token s with
      | Some (Token ty val p, s') => Token ty val p :: tokens n' s'
      | Some (r, _) => [r]
      | None => []
      end
  end.

(** A sequence of returned values lies in order in the characters from
    [lo] up to [hi]: every token starts at or after the end of the one
    before and ends within the buffer, and nothing follows an [Error] or
    the [None] of the end of the input. *)
Fixpoint in_order (lo hi : nat) (rs : list Returned) : Prop :=
  match rs with
  | [] => True
  | r :: rest =>
      match r with
      | Token ty val p =>
          lo <= p /\ p + token_span ty val <= hi
          /\ in_order (p + token_span ty val) hi rest
      | Error p => lo <= p /\ p < hi /\ rest = []
      | PyNone => rest = []
      | IndexError => False
      end
  end.

Definition is_token (r : Returned) : bool :=
  match r with
  | Token _ _ _ => true
  | _ => false
  end.

(** The end of a sequence of calls: the end of the input, or an error. *)
Definition is_end (r : Returned) : bool :=
  match r with
  | PyNone | Error _ => true
  | _ => false
  end.

(** A name all of whose characters are identifier characters and that
    does not start with a digit. *)
Definition lexes_as_name (nm : string) : bool :=
  match list_ascii_of_string nm with
  | [] => false
  | c :: run =>
      is_identifier c && negb (isdigit c) && forallb is_identifier run
  end.

End Munch.

(** ** Reading the values the builtins build *)

Module Reading.
Import Py Builtins.

(** The elements of a proper list: the [first] slots along the [second]
    slots of a chain of pairs that ends in [Nil]. *)
Fixpoint elements (l : Value) : option (list Value) :=
  match l with
  | Nil => Some []
  | Pair first second => option_map (cons first) (elements second)
  | _ => None
  end.

(** The arithmetic builtins, the operator each one folds and its unary
    function, on integers. *)
Definition arithmetic_table : list (string * (Z -> Z -> Z) * (Z -> Z)) :=
  [("+", Z.add, fun x => x); ("-", Z.sub, Z.opp); ("*", Z.mul, fun x => x)]%string.

(** The six predicates that test the class of their argument. *)
Definition class_predicates : list (string * Class) :=
  [("pair?", CPair); ("boolean?", CBoolean); ("symbol?", CSymbol);
   ("number?", CNumber); ("null?", CNil); ("string?", CString)]%string.

End Reading.

(** ** Pairs as shared objects

    [set-car!] and [set-cdr!] write into a pair that other pairs and other
    holders may refer to, and [eqv?] compares two pairs by [id].  For these
    the pairs live in a store: a pair is known by its place in it, its
    [id], and the store grows by one cell at each [Pair(...)]. *)

Module Store.
Import Py.

(** A reference to an object.  The objects without slots to write are
    kept by value; a pair is its [id]. *)
Inductive Obj :=
| Number (value : PyVal)
| Boolean (value : bool)
| String (value : string)
| Symbol (name : string)
| Nil
| NoneObj
| Pair (id : nat).

(** The two slots of a pair object. *)
Record Cell := {
  first : Obj;
  second : Obj
}.

Definition Heap := list Cell.

(** How a call ends: a returned reference, an exception of the builtins,
    the [IndexError] of a subscript, or a behaviour this development does
    not describe ([==] between objects of different classes, a reference to
    no pair of the store). *)
Inductive Outcome :=
| Returns (obj : Obj)
| Raises (e : Exn)
| RaisesIndexError
| NotDescribed.

(** [isinstance(obj, Pair)] *)
Definition is_Pair (obj : Obj) : bool :=
  match obj with
  | Pair _ => true
  | _ => false
  end.

(** [obj is None] *)
Definition is_None (obj : Obj) : bool :=
  match obj with
  | NoneObj => true
  | _ => false
  end.

(** [check_type(Pair, pair, msg)] on one object. *)
Definition check_Pair (pair : Obj) (msg : string) : option Exn :=
  if negb (is_Pair pair) then Some (ProcedureError msg) else None.

(** The cell with slot [first], or [second], set to [obj]. *)
Definition with_first (c : Cell) (obj : Obj) : Cell :=
  {| first := obj; second := second c |}.

Definition with_second (c : Cell) (obj : Obj) : Cell :=
  {| first := first c; second := obj |}.

(** The store with the cell of [id] replaced. *)
Fixpoint write (h : Heap) (id : nat) (c : Cell) : Heap :=
  match h, id with
  | [], _ => []
  | _ :: h', O => c :: h'
  | c0 :: h', S id' => c0 :: write h' id' c
  end.

(** [Pair(obj1, obj2)]: a new object, with an [id] no pair has yet. *)
Definition builtin_cons (h : Heap) (obj1 obj2 : Obj) : Outcome * Heap :=
  (Returns (Pair (List.length h)),
   h ++ [{| first := obj1; second := obj2 |}]).

Definition builtin_car (h : Heap) (pair : Obj) : Outcome * Heap :=
  match check_Pair pair "Expected pair or list." with
  | Some e => (Raises e, h)
  | None =>
      match pair with
      | Pair id =>
          match nth_error h id with
          | Some c =>
              if is_None (first c)
              then (Raises (ProcedureError "attempted car on empty list"), h)
              else (Returns (first c), h)
          | None => (NotDescribed, h)
          end
      | _ => (NotDescribed, h)
      end
  end.

Definition builtin_cdr (h : Heap) (pair : Obj) : Outcome * Heap :=
  match check_Pair pair "Expected pair or list." with
  | Some e => (Raises e, h)
  | None =>
      match pair with
      | Pair id =>
          match nth_error h id with
          | Some c =>
              if is_None (first c)
              then (Raises (ProcedureError "attempted cdr on empty list"), h)
              else (Returns (second c), h)
          | None => (NotDescribed, h)
          end
      | _ => (NotDescribed, h)
      end
  end.

Definition builtin_set_car (h : Heap) (pair obj : Obj) : Outcome * Heap :=
  match check_Pair pair "Expected pair or list." with
  | Some e => (Raises e, h)
  | None =>
      match pair with
      | Pair id =>
          match nth_error h id with
          | Some c => (Returns pair, write h id (with_first c obj))
          | None => (NotDescribed, h)
          end
      | _ => (NotDescribed, h)
      end
  end.

Definition builtin_set_cdr (h : Heap) (pair obj : Obj) : Outcome * Heap :=
  match check_Pair pair "Expected pair or list." with
  | Some e => (Raises e, h)
  | None =>
      match pair with
      | Pair id =>
          match nth_error h id with
          | Some c => (Returns pair, write h id (with_second c obj))
          | None => (NotDescribed, h)
          end
      | _ => (NotDescribed, h)
      end
  end.

(** Modelled from the spec: [left == right] when the two are not both
    pairs.  The design document gives value equality to two objects of one
    class ([expressions.py] is not among the sources); what [==] does
    between objects of two classes, or on [None], is left open. *)
Definition value_eq (left_ right_ : Obj) : Outcome :=
  match left_, right_ with
  | Number (PyInt x), Number (PyInt y) => Returns (Boolean (x =? y)%Z)
  | Boolean x, Boolean y => Returns (Boolean (Bool.eqb x y))
  | String x, String y => Returns (Boolean (String.eqb x y))
  | Symbol x, Symbol y => Returns (Boolean (String.eqb x y))
  | Nil, Nil => Returns (Boolean true)
  | _, _ => NotDescribed
  end.

(** [builtin_eqv], declared with a starred parameter: [args[0]] and
    [args[1]] are read, the other arguments are not. *)
Definition builtin_eqv (h : Heap) (args : list Obj) : Outcome * Heap :=
  match args with
  | left_ :: right_ :: _ =>
      match left_, right_ with
      | Pair id_left, Pair id_right =>
          (Returns (Boolean (id_left =? id_right)), h)
      | _, _ => (value_eq left_ right_, h)
      end
  | _ => (RaisesIndexError, h)
  end.

End Store.

(** * Properties of the builtin procedures *)

Section BuiltinProperties.
Import Py Builtins Design.

(** ** Helper lemmas *)

Lemma first_equal_find (b : bool) (args : list Value) :
  first_equal b args = find (fun el => eq_Boolean el b) args.
Proof.
  induction args as [|el rest IH]; simpl; [reflexivity|].
  destruct (eq_Boolean el b); [reflexivity | exact IH].
Qed.

Lemma last_item_last (d : Value) (args : list Value) :
  args <> [] -> last_item args = Return (last args d).
Proof.
  unfold last_item.
  induction args as [|a rest IH]; intros Hne; [congruence|].
  destruct rest as [|b rest']; [reflexivity|].
  assert (Hne' : b :: rest' <> []) by discriminate.
  specialize (IH Hne'). simpl in IH. simpl.
  rewrite Nat.sub_0_r in *. exact IH.
Qed.

Lemma logic_loop_spec (stop : bool) (args : list Value) :
  match first_equal stop args with
  | Some el => Return el
  | None =>
      if 0 <? List.length args then last_item args
      else Return (Boolean (negb stop))
  end = Return (first_or_last stop args).
Proof.
  unfold first_or_last. rewrite <- first_equal_find.
  destruct (first_equal stop args) as [el|]; [reflexivity|].
  destruct args as [|a rest]; [reflexivity|].
  change (0 <? List.length (a :: rest)) with true. cbv iota.
  apply last_item_last. discriminate.
Qed.

(** The loop of [comp_op] over well-formed numbers computes the chain. *)
Lemma comp_loop_numbers (op : PyVal -> PyVal -> Result PyVal)
      (rel : Z -> Z -> bool)
      (Hop : forall x y, op (PyInt x) (PyInt y) = Return (PyBool (rel x y)))
      (zs : list Z) :
  forall a, comp_loop op (Num a) (map Num zs)
            = Return (Boolean (chain_holds rel (a :: zs))).
Proof.
  induction zs as [|b zs IH]; intros a; [reflexivity|].
  cbn [map comp_loop Num get_value bind]. rewrite Hop. cbn [bind truthy].
  change (chain_holds rel (a :: b :: zs))
    with (rel a b && chain_holds rel (b :: zs)).
  destruct (rel a b); [apply IH | reflexivity].
Qed.

(** The loop stops at the first adjacent pair that fails, whatever
    follows it. *)
Lemma comp_loop_stops (op : PyVal -> PyVal -> Result PyVal)
      (rel : Z -> Z -> bool)
      (Hop : forall x y, op (PyInt x) (PyInt y) = Return (PyBool (rel x y)))
      (a b : Z) (rest : list Value) (Hab : rel a b = false)
      (pre : list Z) :
  forall x, chain_holds rel (x :: pre ++ [a]) = true ->
            comp_loop op (Num x) (map Num (pre ++ [a; b]) ++ rest)
            = Return (Boolean false).
Proof.
  induction pre as [|y pre IH]; intros x Hx.
  - cbn in Hx. rewrite andb_true_r in Hx.
    cbn [app map comp_loop Num get_value bind].
    rewrite Hop. cbn [bind truthy]. rewrite Hx.
    cbn [comp_loop get_value bind]. rewrite Hop. cbn [bind truthy].
    rewrite Hab. reflexivity.
  - change (chain_holds rel (x :: (y :: pre) ++ [a]))
      with (rel x y && chain_holds rel (y :: pre ++ [a])) in Hx.
    apply andb_true_iff in Hx. destruct Hx as [Hxy Hrest].
    cbn [app map comp_loop Num get_value bind].
    rewrite Hop. cbn [bind truthy]. rewrite Hxy. apply IH. exact Hrest.
Qed.

Lemma comparison_ops (nm : string) (rel : Z -> Z -> bool) :
  In (nm, rel) comparison_relations ->
  exists op, lookup nm builtin_map = Some (comp_op op)
             /\ forall x y, op (PyInt x) (PyInt y) = Return (PyBool (rel x y)).
Proof.
  intros H. cbn in H.
  repeat (destruct H as [H|H]; [inversion H; subst; clear H|]);
    [exists op_eq | exists op_gt | exists op_lt | exists op_ge | exists op_le | contradiction];
    (split; [reflexivity | intros x y; reflexivity]).
Qed.

(** ** The claims *)

(** C1 (the code at the failing inputs).  The reduction builtins do not
    all reject an argument that is not a number: a comparison of a single
    string is true, a comparison of a boolean with the number it counts
    as is true, a comparison of a number with a string ends in Python's
    own [TypeError], the unary case of [+] and [*] and [quotient] compute
    a number from booleans or a string.  Only the arithmetic of two or
    more arguments raises [ProcedureError]. *)
Theorem C1_reductions_on_non_numbers :
  apply_builtin "<" [String "a"] = Some (Return (Boolean true))
  /\ apply_builtin "=" [Boolean true; Num 1] = Some (Return (Boolean true))
  /\ apply_builtin "<" [Num 1; String "a"] = Some (Raise TypeError)
  /\ apply_builtin "+" [Boolean true] = Some (Return (Num 1))
  /\ apply_builtin "*" [String "a"] = Some (Return (Number (PyStr "a")))
  /\ apply_builtin "-" [Nil] = Some (Raise AttributeError)
  /\ apply_builtin "quotient" [Boolean true; Boolean true]
     = Some (Return (Num 1))
  /\ apply_builtin "modulo" [Num 7; Nil] = Some (Raise AttributeError)
  /\ apply_builtin "+" [Num 1; Boolean true]
     = Some (Raise (ProcedureError "Expected numbers only")).
Proof. repeat split. Qed.

(** C2 (counterexample).  [car] of a pair whose [first] slot holds the
    empty-list value [Nil] returns that [Nil], and [cdr] returns the
    [second] slot: neither raises. *)
Lemma C2_car_of_Nil_first_returns :
  call builtin_car [Pair Nil (Num 1)] = Return Nil
  /\ call builtin_cdr [Pair Nil (Num 1)] = Return (Num 1)
  /\ apply_builtin "car" [Pair Nil (Num 1)] = Some (Return Nil).
Proof. repeat split. Qed.

(** C2 (amended).  [builtin_car] and [builtin_cdr] raise
    [ProcedureError] on an object that is not a pair, and on a pair whose
    [first] slot is Python's [None]; on every other pair, also one whose
    [first] slot holds [Nil], [car] returns the [first] slot and [cdr] the
    [second]. *)
Theorem C2_car_cdr_test_for_None (p : Value) :
  (isinstance p CPair = false ->
   call builtin_car [p] = Raise (ProcedureError "Expected pair or list.")
   /\ call builtin_cdr [p] = Raise (ProcedureError "Expected pair or list."))
  /\ (forall s, p = Pair NoneObj s ->
      call builtin_car [p] = Raise (ProcedureError "attempted car on empty list")
      /\ call builtin_cdr [p] = Raise (ProcedureError "attempted cdr on empty list"))
  /\ (forall f s, p = Pair f s -> is_None f = false ->
      call builtin_car [p] = Return f /\ call builtin_cdr [p] = Return s).
Proof.
  split; [|split].
  - intros H. destruct p; try discriminate H; split; reflexivity.
  - intros s ->. split; reflexivity.
  - intros f s -> Hf. cbn. rewrite Hf. split; reflexivity.
Qed.

(** The three cases of [C2_car_cdr_test_for_None] on [Nil], on a pair
    with [None] first and on a pair with [Nil] first. *)
Lemma C2_car_cdr_witness :
  (call builtin_car [Nil] = Raise (ProcedureError "Expected pair or list.")
   /\ call builtin_cdr [Nil] = Raise (ProcedureError "Expected pair or list."))
  /\ (call builtin_car [Pair NoneObj Nil]
      = Raise (ProcedureError "attempted car on empty list")
      /\ call builtin_cdr [Pair NoneObj Nil]
         = Raise (ProcedureError "attempted cdr on empty list"))
  /\ (call builtin_car [Pair Nil (Num 1)] = Return Nil
      /\ call builtin_cdr [Pair Nil (Num 1)] = Return (Num 1)).
Proof.
  split; [|split].
  - exact (proj1 (C2_car_cdr_test_for_None Nil) eq_refl).
  - exact (proj1 (proj2 (C2_car_cdr_test_for_None (Pair NoneObj Nil)))
                 Nil eq_refl).
  - exact (proj2 (proj2 (C2_car_cdr_test_for_None (Pair Nil (Num 1))))
                 Nil (Num 1) eq_refl eq_refl).
Defined.

(** C4.  [apply] on a procedure of fixed arity [n]: with a number of
    arguments other than [n] it raises the arity error, whose message
    holds the name, [n] and the number received, whatever the body is;
    with [n] arguments it is the body on these arguments. *)
Theorem C4_apply_checks_arity (nm : string) (n : nat)
        (body : list Value -> Result Value) (args : list Value) :
  let p := {| name := nm;
              builtin_proc := {| params := Fixed n; call := body |} |} in
  (List.length args <> n ->
   apply p args
   = Raise (ProcedureError
              ("Procedure " ++ dquote ++ nm ++ dquote ++ " expected "
               ++ str_of_nat n ++ " argument(s). Got "
               ++ str_of_nat (List.length args) ++ " instead")%string))
  /\ (List.length args = n -> apply p args = body args).
Proof.
  cbv zeta. unfold apply, get_number_of_params. cbn [builtin_proc params call name].
  split; intros H.
  - apply Nat.eqb_neq in H. rewrite Nat.eqb_sym in H. rewrite H. cbn [negb].
    reflexivity.
  - subst n. rewrite Nat.eqb_refl. reflexivity.
Qed.

(** [quotient], of arity 2, applied to one, three and two arguments. *)
Lemma C4_apply_checks_arity_witness :
  (apply {| name := "quotient"; builtin_proc := builtin_quotient |} [Num 7]
   = Raise (ProcedureError
              ("Procedure " ++ dquote ++ "quotient" ++ dquote ++ " expected "
               ++ "2" ++ " argument(s). Got " ++ "1" ++ " instead")%string))
  /\ (apply {| name := "quotient"; builtin_proc := builtin_quotient |}
            [Num 7; Num 2; Num 1]
      = Raise (ProcedureError
                 ("Procedure " ++ dquote ++ "quotient" ++ dquote ++ " expected "
                  ++ "2" ++ " argument(s). Got " ++ "3" ++ " instead")%string))
  /\ (apply {| name := "quotient"; builtin_proc := builtin_quotient |}
            [Num 7; Num 2]
      = Return (Num 3)).
Proof.
  split; [|split].
  - apply (proj1 (C4_apply_checks_arity "quotient" 2 (call builtin_quotient)
                                         [Num 7])).
    cbn. lia.
  - apply (proj1 (C4_apply_checks_arity "quotient" 2 (call builtin_quotient)
                                         [Num 7; Num 2; Num 1])).
    cbn. lia.
  - apply (proj2 (C4_apply_checks_arity "quotient" 2 (call builtin_quotient)
                                         [Num 7; Num 2])).
    reflexivity.
Defined.

(** C6.  A comparison builtin on one or more numbers returns
    [Boolean(true)] exactly when every adjacent pair, left to right,
    satisfies the operator, so [Boolean(true)] on a single number; and it
    returns [Boolean(false)] at the first adjacent pair that fails,
    whatever the arguments after that pair are. *)
Theorem C6_comparison_chain (nm : string) (rel : Z -> Z -> bool) :
  In (nm, rel) comparison_relations ->
  (forall z zs, apply_builtin nm (map Num (z :: zs))
                = Some (Return (Boolean (chain_holds rel (z :: zs)))))
  /\ (forall z, apply_builtin nm [Num z] = Some (Return (Boolean true)))
  /\ (forall pre a b rest,
        chain_holds rel (pre ++ [a]) = true -> rel a b = false ->
        apply_builtin nm (map Num (pre ++ [a; b]) ++ rest)
        = Some (Return (Boolean false))).
Proof.
  intros Hin. destruct (comparison_ops nm rel Hin) as (op & Hlook & Hop).
  unfold apply_builtin, registered. rewrite Hlook. cbn [option_map].
  unfold apply. cbn.
  split; [|split].
  - intros z zs. f_equal. apply (comp_loop_numbers op rel Hop).
  - intros z. reflexivity.
  - intros pre a b rest Hpre Hab. f_equal.
    destruct pre as [|x pre].
    + cbn. rewrite Hop. cbn. rewrite Hab. reflexivity.
    + apply (comp_loop_stops op rel Hop a b rest Hab pre x Hpre).
Qed.

(** [<] on 1 2 3, on 1 alone, and on 1 3 2 followed by a value that is
    not a number. *)
Lemma C6_comparison_chain_witness :
  apply_builtin "<" [Num 1; Num 2; Num 3] = Some (Return (Boolean true))
  /\ apply_builtin "<" [Num 1] = Some (Return (Boolean true))
  /\ apply_builtin "<" [Num 1; Num 3; Num 2; Nil]
     = Some (Return (Boolean false)).
Proof.
  assert (Hin : In ("<"%string, Z.ltb) comparison_relations)
    by (cbn; tauto).
  destruct (C6_comparison_chain "<" Z.ltb Hin) as (Hall & Hone & Hstop).
  split; [|split].
  - exact (Hall 1%Z [2%Z; 3%Z]).
  - exact (Hone 1%Z).
  - exact (Hstop [1%Z] 3%Z 2%Z [Nil] eq_refl eq_refl).
Defined.

(** C8.  [and] returns its first argument equal to [Boolean(false)],
    else its last argument, else [Boolean(true)] when it has none; [or]
    returns its first argument equal to [Boolean(true)], else its last
    argument, else [Boolean(false)]: [or(false, false, 3)] is 3. *)
Theorem C8_and_or (args : list Value) :
  apply_builtin "and" args = Some (Return (first_or_last false args))
  /\ apply_builtin "or" args = Some (Return (first_or_last true args))
  /\ apply_builtin "and" [] = Some (Return (Boolean true))
  /\ apply_builtin "or" [] = Some (Return (Boolean false))
  /\ apply_builtin "and" [Boolean true; Boolean false; Boolean true]
     = Some (Return (Boolean false))
  /\ apply_builtin "or" [Boolean false; Boolean false; Num 3]
     = Some (Return (Num 3)).
Proof.
  split; [|split]; [| |repeat split].
  - unfold apply_builtin. cbn. f_equal. apply (logic_loop_spec false).
  - unfold apply_builtin. cbn. f_equal. apply (logic_loop_spec true).
Qed.

(** C9.  Each comparison builtin is declared with a starred parameter,
    so [apply] never raises its arity error and calls the body on any
    arguments; on no argument the body ends in [StopIteration], which is
    not [ProcedureError]. *)
Theorem C9_comparison_of_nothing :
  Forall (fun nm =>
            exists p, registered nm = Some p
              /\ get_number_of_params (builtin_proc p) = Positional
              /\ (forall args, apply p args = call (builtin_proc p) args)
              /\ apply p [] = Raise StopIteration
              /\ is_ProcedureError (apply p []) = false)
         comparison_names.
Proof.
  repeat constructor; eexists; (split; [reflexivity|]); repeat split.
Qed.

(** C10.  [builtin_quotient] and [builtin_mod] on two numbers of which
    the second is 0 end in [ZeroDivisionError], also through [apply];
    and on no arguments at all do they end in [ProcedureError]. *)
Theorem C10_quotient_modulo_by_zero (a : Z) (args : list Value) :
  call builtin_quotient [Num a; Num 0] = Raise ZeroDivisionError
  /\ call builtin_mod [Num a; Num 0] = Raise ZeroDivisionError
  /\ apply_builtin "quotient" [Num a; Num 0] = Some (Raise ZeroDivisionError)
  /\ apply_builtin "modulo" [Num a; Num 0] = Some (Raise ZeroDivisionError)
  /\ is_ProcedureError (call builtin_quotient args) = false
  /\ is_ProcedureError (call builtin_mod args) = false.
Proof.
  repeat split.
  - destruct args as [|x [|y [|? ?]]]; try reflexivity.
    cbn. destruct x as [[z|b|s]| | | | | |], y as [[z'|b'|s']| | | | | |];
      try reflexivity; cbn;
      repeat match goal with
             | |- context [if ?c then _ else _] => destruct c
             end; reflexivity.
  - destruct args as [|x [|y [|? ?]]]; try reflexivity.
    cbn. destruct x as [[z|b|s]| | | | | |], y as [[z'|b'|s']| | | | | |];
      try reflexivity; cbn;
      repeat match goal with
             | |- context [if ?c then _ else _] => destruct c
             end; reflexivity.
Qed.

End BuiltinProperties.

(** * Properties of the tokenizer *)

Section LexerProperties.
Import Lexer Design.

(** ** Reading the buffer *)

Lemma get_char_here (s : Lexer) :
  _get_char s None = nth_error (buffer s) (pos s).
Proof. reflexivity. Qed.

Lemma get_char_at (s : Lexer) (e : nat) :
  1 <= e -> _get_char s (Some e) = nth_error (buffer s) e.
Proof. destruct e; [lia | reflexivity]. Qed.

Lemma skipn_cons_nth (l : list ascii) :
  forall n c, nth_error l n = Some c -> skipn n l = c :: skipn (S n) l.
Proof.
  induction l as [|a l IH]; intros [|n] c H; try discriminate.
  - injection H as ->. reflexivity.
  - cbn in H. apply IH in H. exact H.
Qed.

Lemma skipn_nil_nth (l : list ascii) (n : nat) :
  nth_error l n = None -> skipn n l = [].
Proof. intros H. apply skipn_all2. apply nth_error_None. exact H. Qed.

Lemma maximal_run_le (P : ascii -> bool) (l : list ascii) :
  maximal_run P l <= List.length l.
Proof.
  induction l as [|c l IH]; cbn; [lia|]. destruct (P c); lia.
Qed.

Lemma run_from_le (P : ascii -> bool) (l : list ascii) (e : nat) :
  e <= List.length l ->
  e + maximal_run P (skipn e l) <= List.length l.
Proof.
  intros H. pose proof (maximal_run_le P (skipn e l)) as Hr.
  rewrite length_skipn in Hr. lia.
Qed.

Lemma set_pos_same (s : Lexer) : set_pos s (pos s) = s.
Proof. destruct s; reflexivity. Qed.

(** ** The loops, given fuel for the characters left *)

Ltac scan_loop IH :=
  let c := fresh "c" in
  let Hc := fresh "Hc" in
  match goal with
  | |- context [nth_error ?l ?e] =>
      destruct (nth_error l e) as [c|] eqn:Hc;
      [ rewrite (skipn_cons_nth _ _ _ Hc); cbn [maximal_run];
        assert (e < List.length l) by (apply nth_error_Some; congruence)
      | rewrite (skipn_nil_nth _ _ Hc); cbn [maximal_run] ]
  end.

Lemma number_loop_run (fuel : nat) (s : Lexer) :
  forall e, 1 <= e -> List.length (buffer s) - e < fuel ->
  number_loop fuel s e
  = Some (e + maximal_run isdigit (skipn e (buffer s))).
Proof.
  induction fuel as [|fuel IH]; intros e He Hf; [lia|].
  cbn [number_loop]. rewrite (get_char_at s e He). scan_loop IH.
  - destruct (isdigit c).
    + rewrite IH by lia. rewrite Nat.add_1_r. f_equal. lia.
    + f_equal. lia.
  - f_equal. lia.
Qed.

Lemma identifier_loop_run (fuel : nat) (s : Lexer) :
  forall e, 1 <= e -> List.length (buffer s) - e < fuel ->
  identifier_loop fuel s e
  = Some (e + maximal_run is_identifier (skipn e (buffer s))).
Proof.
  induction fuel as [|fuel IH]; intros e He Hf; [lia|].
  cbn [identifier_loop]. rewrite (get_char_at s e He). scan_loop IH.
  - destruct (is_identifier c).
    + rewrite IH by lia. rewrite Nat.add_1_r. f_equal. lia.
    + f_equal. lia.
  - f_equal. lia.
Qed.

(** The loop of [_process_string] runs over the characters that are
    neither a quote nor a newline, and what stops it decides. *)
Lemma string_loop_run (fuel : nat) (s : Lexer) :
  forall e, 1 <= e -> List.length (buffer s) - e < fuel ->
  string_loop fuel s e
  = Some (let stop := e + maximal_run inside_string (skipn e (buffer s)) in
          if char_is (nth_error (buffer s) stop) "034"
          then Some stop else None).
Proof.
  induction fuel as [|fuel IH]; intros e He Hf; [lia|].
  cbn [string_loop]. rewrite (get_char_at s e He). cbv zeta.
  destruct (nth_error (buffer s) e) as [c|] eqn:Hc.
  - rewrite (skipn_cons_nth _ _ _ Hc). cbn [maximal_run char_is].
    assert (e < List.length (buffer s)) by (apply nth_error_Some; congruence).
    unfold inside_string.
    destruct (Ascii.eqb c "034") eqn:Hq; cbn [negb andb].
    + rewrite Nat.add_0_r, Hc. cbn [char_is]. rewrite Hq. reflexivity.
    + destruct (Ascii.eqb c "010") eqn:Hn; cbn [negb].
      * rewrite Nat.add_0_r, Hc. cbn [char_is]. rewrite Hq. reflexivity.
      * rewrite IH by lia. cbv zeta. rewrite Nat.add_1_r.
        replace (S e + maximal_run inside_string (skipn (S e) (buffer s)))
          with (e + S (maximal_run (fun c0 => negb (Ascii.eqb c0 "034")
                                              && negb (Ascii.eqb c0 "010"))
                                   (skipn (S e) (buffer s))))
          by (unfold inside_string; lia).
        reflexivity.
  - rewrite (skipn_nil_nth _ _ Hc). cbn [maximal_run char_is negb].
    rewrite Nat.add_0_r, Hc. reflexivity.
Qed.

Lemma skip_whitespace_run (fuel : nat) :
  forall s, List.length (buffer s) - pos s < fuel ->
  _skip_whitespace fuel s
  = Some (set_pos s (pos s + maximal_run is_garbage
                                         (skipn (pos s) (buffer s)))).
Proof.
  induction fuel as [|fuel IH]; intros s Hf; [lia|].
  cbn [_skip_whitespace]. rewrite get_char_here. scan_loop IH.
  - fold (is_garbage c). destruct (is_garbage c).
    + rewrite IH by (cbn [buffer pos set_pos]; lia).
      cbn [buffer pos set_pos]. rewrite Nat.add_1_r. f_equal.
      unfold set_pos. cbn [buffer]. f_equal. lia.
    + rewrite Nat.add_0_r, set_pos_same. reflexivity.
  - rewrite Nat.add_0_r, set_pos_same. reflexivity.
Qed.

Lemma comment_loop_run (fuel : nat) :
  forall s, List.length (buffer s) - pos s < fuel ->
  comment_loop fuel s
  = Some (set_pos s (pos s + maximal_run not_newline
                                         (skipn (pos s) (buffer s)))).
Proof.
  induction fuel as [|fuel IH]; intros s Hf; [lia|].
  cbn [comment_loop]. rewrite get_char_here. scan_loop IH.
  - fold (not_newline c). destruct (not_newline c).
    + rewrite IH by (cbn [buffer pos set_pos]; lia).
      cbn [buffer pos set_pos]. rewrite Nat.add_1_r. f_equal.
      unfold set_pos. cbn [buffer]. f_equal. lia.
    + rewrite Nat.add_0_r, set_pos_same. reflexivity.
  - rewrite Nat.add_0_r, set_pos_same. reflexivity.
Qed.

(** What the [while] loop at the head of [next_token] tests. *)
Lemma skippable_here (s : Lexer) (c : ascii) :
  nth_error (buffer s) (pos s) = Some c ->
  char_in (_get_char s None) GARBAGE_CHARS
  || char_is (_get_char s None) COMMENT_CHAR
  = is_garbage c || Ascii.eqb c COMMENT_CHAR.
Proof. intros H. rewrite get_char_here, H. reflexivity. Qed.

(** The loop ends, at a character that is neither blank nor the start
    of a comment, or at the end of the buffer. *)
Lemma skip_garbage_ends (inner : nat) (fuel : nat) :
  forall s,
    List.length (buffer s) - pos s < fuel ->
    List.length (buffer s) < inner ->
    exists s1,
      skip_garbage fuel inner s = Some s1
      /\ buffer s1 = buffer s
      /\ pos s <= pos s1
      /\ char_in (_get_char s1 None) GARBAGE_CHARS
         || char_is (_get_char s1 None) COMMENT_CHAR = false.
Proof.
  induction fuel as [|fuel IH]; intros s Hf Hi; [lia|].
  cbn [skip_garbage].
  destruct (char_in (_get_char s None) GARBAGE_CHARS
            || char_is (_get_char s None) COMMENT_CHAR) eqn:Hskip.
  2:{ exists s. repeat split; [lia | exact Hskip]. }
  destruct (nth_error (buffer s) (pos s)) as [c|] eqn:Hc.
  2:{ rewrite get_char_here, Hc in Hskip. discriminate Hskip. }
  assert (Hlt : pos s < List.length (buffer s))
    by (apply nth_error_Some; congruence).
  rewrite (skippable_here s c Hc) in Hskip.
  assert (Hstep : exists s2,
             (self1 <- _skip_comments inner s;; _skip_whitespace inner self1)%lex
             = Some s2 /\ buffer s2 = buffer s /\ pos s < pos s2).
  { unfold _skip_comments. rewrite get_char_here, Hc. cbn [char_is].
    destruct (Ascii.eqb c COMMENT_CHAR) eqn:Hcomment.
    - rewrite comment_loop_run by lia. cbn [obind].
      rewrite skip_whitespace_run by (cbn [buffer pos set_pos]; lia).
      eexists. split; [reflexivity|]. cbn [buffer pos set_pos].
      split; [reflexivity|].
      rewrite (skipn_cons_nth _ _ _ Hc). cbn [maximal_run].
      apply Ascii.eqb_eq in Hcomment. subst c. cbn. lia.
    - cbn [obind]. rewrite skip_whitespace_run by lia.
      eexists. split; [reflexivity|]. cbn [buffer pos set_pos].
      split; [reflexivity|].
      rewrite (skipn_cons_nth _ _ _ Hc). cbn [maximal_run].
      rewrite orb_false_r in Hskip. rewrite Hskip. lia. }
  destruct Hstep as (s2 & Hs2 & Hb2 & Hp2).
  unfold obind in Hs2.
  destruct (_skip_comments inner s) as [sa|]; [|discriminate Hs2].
  cbn [obind]. rewrite Hs2. cbn [obind].
  destruct (IH s2) as (s1 & Hs1 & Hb1 & Hp1 & Hg1).
  - rewrite Hb2. lia.
  - rewrite Hb2. exact Hi.
  - exists s1. rewrite Hs1. repeat split; [congruence | lia | exact Hg1].
Qed.

(** At a character the loop does not skip, it leaves the lexer as it is. *)
Lemma skip_garbage_stays (fuel inner : nat) (s : Lexer) :
  char_in (_get_char s None) GARBAGE_CHARS
  || char_is (_get_char s None) COMMENT_CHAR = false ->
  skip_garbage (S fuel) inner s = Some s.
Proof. intros H. cbn [skip_garbage]. rewrite H. reflexivity. Qed.

(** A call after the blanks and comments are skipped is the call before. *)
Lemma next_token_after_skip (s s1 : Lexer) :
  skip_garbage (S (List.length (buffer s))) (S (List.length (buffer s))) s
  = Some s1 ->
  buffer s1 = buffer s ->
  char_in (_get_char s1 None) GARBAGE_CHARS
  || char_is (_get_char s1 None) COMMENT_CHAR = false ->
  next_token s1 = next_token s.
Proof.
  intros Hs Hb Hg. unfold next_token, next_token_fuel.
  rewrite Hb, Hs, (skip_garbage_stays _ _ s1 Hg). reflexivity.
Qed.

Lemma slice_length (s : Lexer) (a b : nat) :
  a <= b -> b <= List.length (buffer s) ->
  List.length (slice s a b) = b - a.
Proof.
  intros Hab Hb. unfold slice. rewrite length_firstn, length_skipn. lia.
Qed.

Ltac cursor_arith :=
  cbn [token_span buffer set_pos pos List.length];
  rewrite ?slice_length by lia;
  lia.

Lemma char_in_some (char : option ascii) (S : list ascii) :
  char_in char S = true -> exists c, char = Some c.
Proof. destruct char as [c|]; [eauto | discriminate]. Qed.

(** Every call returns, and leaves the cursor as [cursor_after] says;
    after an [Error] the next call is the same call again. *)
Lemma next_token_returns (s : Lexer) :
  exists r s',
    next_token s = Some (r, s')
    /\ buffer s' = buffer s
    /\ cursor_after s r s'
    /\ (forall p, r = Error p -> next_token s' = next_token s).
Proof.
  destruct (skip_garbage_ends (S (List.length (buffer s)))
                              (S (List.length (buffer s))) s)
    as (s1 & Hs & Hb & Hp & Hg); [lia | lia |].
  pose proof (next_token_after_skip s s1 Hs Hb Hg) as Hsame.
  assert (Hlen : List.length (buffer s1) = List.length (buffer s))
    by congruence.
  unfold next_token at 1. unfold next_token_fuel. rewrite Hs. cbn [obind].
  rewrite get_char_here.
  destruct (nth_error (buffer s1) (pos s1)) as [c|] eqn:Hc.
  2:{ exists PyNone, s1. repeat split; try assumption; try discriminate.
      cbn. apply nth_error_None in Hc. rewrite Hb in Hc. exact Hc. }
  assert (Hlt : pos s1 < List.length (buffer s1))
    by (apply nth_error_Some; congruence).
  destruct (Ascii.eqb c "#"
            && char_in (_get_char s1 (Some (pos s1 + 1))) TRUE_OR_FALSE_CHARS)
           eqn:Hbool.
  { apply andb_true_iff in Hbool. destruct Hbool as [_ Htf].
    apply char_in_some in Htf. destruct Htf as [x Hx].
    rewrite get_char_at in Hx by lia.
    assert (pos s1 + 1 < List.length (buffer s1))
      by (apply nth_error_Some; congruence).
    eexists _, _. split; [reflexivity|]. cbn [buffer set_pos pos].
    repeat split; try assumption; try discriminate; cursor_arith. }
  destruct (isdigit c) eqn:Hdigit.
  { unfold _process_number. rewrite number_loop_run by lia. cbn [obind].
    pose proof (run_from_le isdigit (buffer s1) (pos s1 + 1)) as Hle.
    eexists _, _. split; [reflexivity|]. cbn [buffer set_pos pos].
    repeat split; try assumption; try discriminate; cursor_arith. }
  destruct (Ascii.eqb c "034") eqn:Hquote.
  { unfold _process_string. rewrite string_loop_run by lia. cbv zeta.
    cbn [obind].
    pose proof (run_from_le inside_string (buffer s1) (pos s1 + 1)) as Hle.
    set (stop := pos s1 + 1 + maximal_run inside_string
                                          (skipn (pos s1 + 1) (buffer s1))) in *.
    destruct (char_is (nth_error (buffer s1) stop) "034") eqn:Hstop.
    - assert (stop < List.length (buffer s1)).
      { apply nth_error_Some. intros E. rewrite E in Hstop. discriminate. }
      eexists _, _. split; [reflexivity|]. cbn [buffer set_pos pos].
      repeat split; try assumption; try discriminate; cursor_arith.
    - exists (Error (pos s1)), s1.
      repeat split; try assumption. intros p _. exact Hsame. }
  destruct (is_identifier c) eqn:Hident.
  { unfold _process_identifier. rewrite identifier_loop_run by lia.
    cbn [obind].
    pose proof (run_from_le is_identifier (buffer s1) (pos s1 + 1)) as Hle.
    eexists _, _. split; [reflexivity|]. cbn [buffer set_pos pos].
    repeat split; try assumption; try discriminate; cursor_arith. }
  assert (Hsingle : forall ty,
             ty <> STRING ->
             exists r s',
               Some (process_single ty s1) = Some (r, s')
               /\ buffer s' = buffer s
               /\ cursor_after s r s'
               /\ (forall p, r = Error p -> next_token s' = next_token s)).
  { intros ty Hty. unfold process_single. rewrite Hc.
    eexists _, _. split; [reflexivity|]. cbn [buffer set_pos pos].
    repeat split; try assumption; try discriminate;
      destruct ty; try congruence; cursor_arith. }
  destruct (Ascii.eqb c "("); [apply Hsingle; discriminate|].
  destruct (Ascii.eqb c ")"); [apply Hsingle; discriminate|].
  destruct (Ascii.eqb c "'"); [apply Hsingle; discriminate|].
  exists (Error (pos s1)), s1.
  repeat split; try assumption. intros p _. exact Hsame.
Qed.

(** ** Buffers given by their parts *)

Lemma skipn_past (pre : list ascii) (c : ascii) (l : list ascii) :
  skipn (List.length pre + 1) (pre ++ c :: l) = l.
Proof.
  induction pre as [|a pre IH]; [reflexivity | exact IH].
Qed.

Lemma nth_error_past (pre : list ascii) (c : ascii) (l : list ascii) (n : nat) :
  nth_error (pre ++ c :: l) (List.length pre + 1 + n) = nth_error l n.
Proof.
  induction pre as [|a pre IH]; [reflexivity | exact IH].
Qed.

Lemma nth_error_middle (pre : list ascii) (c : ascii) (l : list ascii) :
  nth_error (pre ++ c :: l) (List.length pre) = Some c.
Proof.
  induction pre as [|a pre IH]; [reflexivity | exact IH].
Qed.

Lemma nth_error_end (l tail : list ascii) :
  nth_error (l ++ tail) (List.length l) = nth_error tail 0.
Proof.
  induction l as [|a l IH]; [reflexivity | exact IH].
Qed.

(** A run that covers [l] and stops at what follows it. *)
Lemma maximal_run_app (P : ascii -> bool) (l tail : list ascii) :
  forallb P l = true ->
  maximal_run P tail = 0 ->
  maximal_run P (l ++ tail) = List.length l.
Proof.
  intros Hl Ht. induction l as [|a l IH]; [exact Ht|].
  cbn in Hl. apply andb_true_iff in Hl. destruct Hl as [Ha Hl].
  cbn. rewrite Ha, (IH Hl). reflexivity.
Qed.

Lemma firstn_run (l tail : list ascii) :
  firstn (List.length l) (l ++ tail) = l.
Proof.
  rewrite firstn_app, Nat.sub_diag, firstn_all. cbn. apply app_nil_r.
Qed.

(** [_process_string] at an opening quote: what follows the run of
    characters inside the string decides. *)
Lemma process_string_at_quote (pre body tail : list ascii) (fuel : nat) :
  forallb inside_string body = true ->
  maximal_run inside_string tail = 0 ->
  List.length (pre ++ "034"%char :: body ++ tail) < fuel ->
  let s := {| buffer := pre ++ "034"%char :: body ++ tail;
              pos := List.length pre |} in
  _process_string fuel s
  = Some (if char_is (nth_error tail 0) "034"
          then (Token STRING body (List.length pre),
                set_pos s (List.length pre + List.length body + 2))
          else (Error (List.length pre), s)).
Proof.
  intros Hbody Htail Hfuel s. subst s. unfold _process_string.
  rewrite string_loop_run by (cbn [buffer pos]; lia).
  cbv zeta. cbn [obind buffer pos].
  rewrite skipn_past, (maximal_run_app _ _ _ Hbody Htail).
  rewrite nth_error_past, nth_error_end.
  destruct (char_is (nth_error tail 0) "034"); [|reflexivity].
  unfold slice. cbn [buffer]. rewrite skipn_past.
  replace (List.length pre + 1 + List.length body - (List.length pre + 1))
    with (List.length body) by lia.
  rewrite firstn_run. do 3 f_equal. lia.
Qed.

(** [next_token] at an opening quote is [_process_string]. *)
Lemma next_token_at_quote (s : Lexer) :
  nth_error (buffer s) (pos s) = Some "034"%char ->
  next_token s = _process_string (S (List.length (buffer s))) s.
Proof.
  intros H. unfold next_token, next_token_fuel.
  rewrite skip_garbage_stays
    by (rewrite get_char_here, H; reflexivity).
  cbn [obind]. rewrite get_char_here, H. reflexivity.
Qed.

(** ** The claims *)

(** C3 (counterexample).  On a character that starts no token, and on
    a string that is not closed, [next_token] returns an [Error] and
    leaves the lexer as it was, cursor included: it is not moved past
    the character of the error, and the call after returns the same
    [Error]. *)
Lemma C3_error_keeps_cursor :
  next_token (lexer_of "@") = Some (Error 0, lexer_of "@")
  /\ pos (lexer_of "@") = 0
  /\ next_token (init ["034"; "a"; "b"; "c"]%char)
     = Some (Error 0, init ["034"; "a"; "b"; "c"]%char).
Proof. repeat split. Qed.

(** C3 (amended).  Every call of [next_token] returns.  When it returns
    a [Token], the cursor is strictly past where the call started, just
    after the characters of the token.  When it returns an [Error], the
    cursor is at the position of the error, and the next call returns the
    same [Error] again.  At the end of the input the cursor is at or past
    the end of the buffer. *)
Theorem C3_cursor_after_next_token (s : Lexer) :
  exists r s',
    next_token s = Some (r, s')
    /\ buffer s' = buffer s
    /\ match r with
       | Token ty val p =>
           pos s <= p /\ pos s < pos s' /\ pos s' = p + token_span ty val
       | Error p =>
           pos s <= p /\ pos s' = p /\ next_token s' = Some (Error p, s')
       | PyNone => List.length (buffer s) <= pos s'
       | IndexError => False
       end.
Proof.
  destruct (next_token_returns s) as (r & s' & Hnt & Hb & Hcur & Hsame).
  exists r, s'. split; [exact Hnt|]. split; [exact Hb|].
  destruct r as [ty val p|p| |]; cbn [cursor_after] in Hcur.
  - destruct Hcur as (Hp & Hspan & Hpos & _). repeat split; lia.
  - destruct Hcur as (Hp & Hpos). repeat split; try assumption.
    rewrite (Hsame p eq_refl). exact Hnt.
  - exact Hcur.
  - exact Hcur.
Qed.

(** C5 (counterexample).  An input that begins with [>=] and goes on
    with an identifier character gives one token of three characters,
    not of two. *)
Lemma C5_ge_followed_by_letter :
  next_token (lexer_of ">=a")
  = Some (Token IDENTIFIER [">"; "="; "a"]%char 0,
          set_pos (lexer_of ">=a") 3).
Proof. reflexivity. Qed.

(** C5 (amended).  On an input that begins with [>=] or [<=],
    [next_token] returns one [IDENTIFIER] token at position 0 whose text
    is these two characters and the maximal run of identifier characters
    after them: never the one character [>] or [<].  The token is the two
    characters alone when the input ends after them or goes on with a
    character that is not an identifier character. *)
Theorem C5_ge_le_one_identifier (c : ascii) (rest : list ascii) :
  c = ">"%char \/ c = "<"%char ->
  let s := init (c :: "="%char :: rest) in
  let k := maximal_run is_identifier rest in
  is_identifier c = true
  /\ is_identifier "=" = true
  /\ next_token s
     = Some (Token IDENTIFIER (c :: "="%char :: firstn k rest) 0,
             set_pos s (2 + k))
  /\ (k = 0 ->
      next_token s = Some (Token IDENTIFIER [c; "="%char] 0, set_pos s 2)).
Proof.
  intros Hc s k.
  assert (Hid : is_identifier c = true)
    by (destruct Hc as [-> | ->]; reflexivity).
  assert (Hnt : next_token s
                = Some (Token IDENTIFIER (c :: "="%char :: firstn k rest) 0,
                        set_pos s (2 + k))).
  { unfold next_token, next_token_fuel.
    rewrite skip_garbage_stays by (destruct Hc as [-> | ->]; reflexivity).
    cbn [obind]. rewrite get_char_here.
    change (nth_error (buffer s) (pos s)) with (Some c). cbv beta iota.
    replace (Ascii.eqb c "#") with false
      by (destruct Hc as [-> | ->]; reflexivity).
    replace (isdigit c) with false
      by (destruct Hc as [-> | ->]; reflexivity).
    replace (Ascii.eqb c "034") with false
      by (destruct Hc as [-> | ->]; reflexivity).
    rewrite Hid. cbn [andb].
    unfold _process_identifier.
    rewrite identifier_loop_run by (cbn; lia).
    cbn [obind]. subst s k. unfold init, slice, set_pos.
    cbn [buffer pos Nat.add skipn maximal_run].
    change (is_identifier "=") with true. cbv iota.
    cbn [Nat.sub firstn skipn]. reflexivity. }
  repeat split; try assumption.
  intros Hk. rewrite Hnt, Hk. reflexivity.
Qed.

(** [<=] followed by a blank, and [>=] at the end of the input. *)
Lemma C5_ge_le_one_identifier_witness :
  next_token (lexer_of "<= 1")
  = Some (Token IDENTIFIER ["<"; "="]%char 0, set_pos (lexer_of "<= 1") 2)
  /\ next_token (lexer_of ">=")
     = Some (Token IDENTIFIER [">"; "="]%char 0, set_pos (lexer_of ">=") 2).
Proof.
  split.
  - exact (proj2 (proj2 (proj2
             (C5_ge_le_one_identifier "<" [" "; "1"]%char
                                      (or_intror eq_refl)))) eq_refl).
  - exact (proj2 (proj2 (proj2
             (C5_ge_le_one_identifier ">" [] (or_introl eq_refl)))) eq_refl).
Defined.

(** C7 (counterexample).  A quote after a backslash closes the string:
    on the six characters quote, a, backslash, quote, b, quote the token
    is the string of a and the backslash, and the cursor is left before
    the b. *)
Lemma C7_escaped_quote_closes :
  next_token (init ["034"; "a"; "\"; "034"; "b"; "034"]%char)
  = Some (Token STRING ["a"; "\"]%char 0,
          set_pos (init ["034"; "a"; "\"; "034"; "b"; "034"]%char) 4).
Proof. reflexivity. Qed.

(** C7 (amended).  At an opening quote, [next_token] takes the
    characters up to the next quote on the same line, whether a
    backslash comes before that quote or not, and returns a [STRING]
    token whose text is what stands between the two quotes, the cursor
    just after the closing quote.  When the buffer ends or a newline comes
    before any quote, it returns an [Error] at the position of the
    opening quote. *)
Theorem C7_string_token (pre body post : list ascii) :
  forallb inside_string body = true ->
  next_token {| buffer := pre ++ "034"%char :: body ++ "034"%char :: post;
                pos := List.length pre |}
  = Some (Token STRING body (List.length pre),
          {| buffer := pre ++ "034"%char :: body ++ "034"%char :: post;
             pos := List.length pre + List.length body + 2 |})
  /\ next_token {| buffer := pre ++ "034"%char :: body;
                   pos := List.length pre |}
     = Some (Error (List.length pre),
             {| buffer := pre ++ "034"%char :: body;
                pos := List.length pre |})
  /\ next_token {| buffer := pre ++ "034"%char :: body ++ "010"%char :: post;
                   pos := List.length pre |}
     = Some (Error (List.length pre),
             {| buffer := pre ++ "034"%char :: body ++ "010"%char :: post;
                pos := List.length pre |}).
Proof.
  intros Hbody.
  assert (Hcall : forall tail,
             maximal_run inside_string tail = 0 ->
             let s := {| buffer := pre ++ "034"%char :: body ++ tail;
                         pos := List.length pre |} in
             next_token s
             = Some (if char_is (nth_error tail 0) "034"
                     then (Token STRING body (List.length pre),
                           set_pos s (List.length pre + List.length body + 2))
                     else (Error (List.length pre), s))).
  { intros tail Htail s.
    rewrite next_token_at_quote by apply nth_error_middle.
    apply (process_string_at_quote pre body tail _ Hbody Htail).
    subst s. cbn [buffer]. lia. }
  split; [|split].
  - exact (Hcall ("034"%char :: post) eq_refl).
  - pose proof (Hcall [] eq_refl) as Hend. rewrite app_nil_r in Hend.
    exact Hend.
  - exact (Hcall ("010"%char :: post) eq_refl).
Qed.

(** A string closed by the quote after a backslash, and a string that is
    not closed. *)
Lemma C7_string_token_witness :
  next_token (init ["034"; "a"; "\"; "034"; "b"; "034"]%char)
  = Some (Token STRING ["a"; "\"]%char 0,
          {| buffer := ["034"; "a"; "\"; "034"; "b"; "034"]%char; pos := 4 |})
  /\ next_token (init ["034"; "a"; "b"; "c"]%char)
     = Some (Error 0, init ["034"; "a"; "b"; "c"]%char).
Proof.
  split.
  - exact (proj1 (C7_string_token [] ["a"; "\"]%char ["b"; "034"]%char
                                  eq_refl)).
  - exact (proj1 (proj2 (C7_string_token [] ["a"; "b"; "c"]%char [] eq_refl))).
Defined.

End LexerProperties.

(** * More on the tokenizer *)

Section TokenizerProperties.
Import Lexer Design Munch.

(** ** The closed form of a call *)

Lemma process_number_run (fuel : nat) (s : Lexer) :
  List.length (buffer s) < fuel ->
  _process_number fuel s
  = Some (let e := pos s + 1 + maximal_run isdigit (skipn (pos s + 1) (buffer s)) in
          (Token NUMBER (slice s (pos s) e) (pos s), set_pos s e)).
Proof.
  intros Hf. unfold _process_number. rewrite number_loop_run by lia.
  reflexivity.
Qed.

Lemma process_identifier_run (fuel : nat) (s : Lexer) :
  List.length (buffer s) < fuel ->
  _process_identifier fuel s
  = Some (let e := pos s + 1
                   + maximal_run is_identifier (skipn (pos s + 1) (buffer s)) in
          (Token IDENTIFIER (slice s (pos s) e) (pos s), set_pos s e)).
Proof.
  intros Hf. unfold _process_identifier. rewrite identifier_loop_run by lia.
  reflexivity.
Qed.

Lemma process_string_run (fuel : nat) (s : Lexer) :
  List.length (buffer s) < fuel ->
  _process_string fuel s
  = Some (let e := pos s + 1
                   + maximal_run inside_string (skipn (pos s + 1) (buffer s)) in
          if char_is (nth_error (buffer s) e) "034"
          then (Token STRING (slice s (pos s + 1) e) (pos s), set_pos s (e + 1))
          else (Error (pos s), s)).
Proof.
  intros Hf. unfold _process_string. rewrite string_loop_run by lia.
  cbv zeta. cbn [obind].
  destruct (char_is _ "034"); reflexivity.
Qed.

(** At a character that the first loop does not skip, [next_token] is
    [token_at]. *)
Lemma next_token_unskipped (s : Lexer) :
  skippable s = false -> next_token s = Some (token_at s).
Proof.
  intros Hs. unfold next_token, next_token_fuel.
  rewrite (skip_garbage_stays _ _ s Hs). cbn [obind].
  unfold token_at. rewrite get_char_here. cbv zeta.
  destruct (nth_error (buffer s) (pos s)) as [c|] eqn:Hc; [|reflexivity].
  rewrite get_char_at by lia.
  destruct (Ascii.eqb c "#" && _); [reflexivity|].
  destruct (isdigit c); [apply process_number_run; lia|].
  destruct (Ascii.eqb c "034"); [apply process_string_run; lia|].
  destruct (is_identifier c); [apply process_identifier_run; lia|].
  unfold _process_lparen, _process_rparen, _process_quote, process_single.
  rewrite Hc.
  destruct (Ascii.eqb c "("); [reflexivity|].
  destruct (Ascii.eqb c ")"); [reflexivity|].
  destruct (Ascii.eqb c "'"); reflexivity.
Qed.

(** Every call is [token_at] where the first loop stops. *)
Lemma next_token_closed (s : Lexer) :
  exists s1,
    next_token s = Some (token_at s1)
    /\ buffer s1 = buffer s
    /\ pos s <= pos s1
    /\ skippable s1 = false.
Proof.
  destruct (skip_garbage_ends (S (List.length (buffer s)))
                              (S (List.length (buffer s))) s)
    as (s1 & Hs & Hb & Hp & Hg); [lia | lia |].
  exists s1. repeat split; try assumption.
  rewrite <- (next_token_after_skip s s1 Hs Hb Hg).
  apply next_token_unskipped. exact Hg.
Qed.

(** ** Maximal runs *)

Lemma run_forallb (P : ascii -> bool) (l : list ascii) :
  forallb P (firstn (maximal_run P l) l) = true.
Proof.
  induction l as [|c l IH]; [reflexivity|].
  cbn [maximal_run]. destruct (P c) eqn:Hc; [|reflexivity].
  cbn [firstn forallb]. rewrite Hc, IH. reflexivity.
Qed.

Lemma run_stops (P : ascii -> bool) (l : list ascii) (d : ascii) :
  nth_error l (maximal_run P l) = Some d -> P d = false.
Proof.
  induction l as [|c l IH]; [discriminate|].
  cbn [maximal_run]. destruct (P c) eqn:Hc.
  - exact IH.
  - intros H. injection H as <-. exact Hc.
Qed.

Lemma run_all (P : ascii -> bool) (l tail : list ascii) :
  forallb P l = true -> maximal_run P tail = 0 ->
  firstn (maximal_run P (l ++ tail)) (l ++ tail) = l.
Proof.
  intros Hl Ht. rewrite (maximal_run_app P l tail Hl Ht). apply firstn_run.
Qed.

(** The characters from [p] on, when there is one at [p]. *)
Lemma slice_head (s : Lexer) (p k : nat) (c : ascii) :
  nth_error (buffer s) p = Some c ->
  slice s p (p + 1 + k) = c :: firstn k (skipn (p + 1) (buffer s)).
Proof.
  intros H. unfold slice. rewrite (skipn_cons_nth _ _ _ H).
  replace (p + 1 + k - p) with (S k) by lia.
  rewrite Nat.add_1_r. reflexivity.
Qed.

Lemma slice_last (s : Lexer) (a b : nat) (d : ascii) :
  a <= b -> nth_error (buffer s) b = Some d ->
  slice s a (b + 1) = slice s a b ++ [d].
Proof.
  intros Hab Hd. unfold slice.
  replace (b + 1 - a) with (S (b - a)) by lia.
  assert (Hn : nth_error (skipn a (buffer s)) (b - a) = Some d).
  { rewrite nth_error_skipn. replace (a + (b - a)) with b by lia. exact Hd. }
  revert Hn. generalize (skipn a (buffer s)) (b - a). clear.
  intros l n. revert l.
  induction n as [|n IH]; intros [|x l] H; try discriminate.
  - injection H as ->. reflexivity.
  - cbn [firstn app]. rewrite <- (IH l H). reflexivity.
Qed.

Lemma slice_is_between (s : Lexer) (a b : nat) :
  slice s a b = between_chars s a b.
Proof. reflexivity. Qed.

Lemma between_same_buffer (s s1 : Lexer) (a b : nat) :
  buffer s1 = buffer s -> between_chars s1 a b = between_chars s a b.
Proof. intros H. unfold between_chars. rewrite H. reflexivity. Qed.

(** ** What a token holds *)

(** The cases of [token_at] that an equation leaves open. *)
Ltac token_at_cases H :=
  unfold token_at in H; cbv zeta in H;
  match type of H with
  | context [nth_error (buffer ?s) (pos ?s)] =>
      let c := fresh "c" in
      let Hc := fresh "Hc" in
      destruct (nth_error (buffer s) (pos s)) as [c|] eqn:Hc;
      [|discriminate H];
      let Hbool := fresh "Hbool" in
      let Hdigit := fresh "Hdigit" in
      let Hquote := fresh "Hquote" in
      let Hident := fresh "Hident" in
      let Hclose := fresh "Hclose" in
      destruct (Ascii.eqb c "#" && _) eqn:Hbool; [try discriminate H|];
      [.. | destruct (isdigit c) eqn:Hdigit; [try discriminate H|];
       [.. | destruct (Ascii.eqb c "034") eqn:Hquote;
        [destruct (char_is _ "034") eqn:Hclose; try discriminate H|];
        [.. | destruct (is_identifier c) eqn:Hident; [try discriminate H|];
         [.. | destruct (Ascii.eqb c "(") eqn:?; [try discriminate H|];
          [.. | destruct (Ascii.eqb c ")") eqn:?; [try discriminate H|];
           [.. | destruct (Ascii.eqb c "'") eqn:?; try discriminate H]]]]]]
  end.

Lemma token_at_number (s : Lexer) (val : list ascii) (p : nat) (s' : Lexer) :
  token_at s = (Token NUMBER val p, s') ->
  val <> []
  /\ forallb isdigit val = true
  /\ val = between_chars s p (pos s')
  /\ p = pos s
  /\ match nth_error (buffer s) (pos s') with
     | Some d => isdigit d = false
     | None => True
     end.
Proof.
  intros H. token_at_cases H.
  injection H as <- <- <-. cbn [pos set_pos].
  rewrite (slice_head s _ _ c Hc).
  repeat split.
  - discriminate.
  - cbn [forallb]. rewrite Hdigit. apply run_forallb.
  - unfold between_chars. rewrite (skipn_cons_nth _ _ _ Hc).
    replace (pos s + 1 + maximal_run isdigit (skipn (pos s + 1) (buffer s))
             - pos s)
      with (S (maximal_run isdigit (skipn (pos s + 1) (buffer s)))) by lia.
    rewrite Nat.add_1_r. reflexivity.
  - rewrite <- nth_error_skipn.
    destruct (nth_error (skipn _ _) _) as [d|] eqn:Hd; [|exact I].
    exact (run_stops isdigit _ d Hd).
Qed.

Lemma between_from (s : Lexer) (p k : nat) (c : ascii) :
  nth_error (buffer s) p = Some c ->
  between_chars s p (p + 1 + k) = c :: firstn k (skipn (p + 1) (buffer s)).
Proof. exact (slice_head s p k c). Qed.

Lemma token_at_identifier (s : Lexer) (val : list ascii) (p : nat) (s' : Lexer) :
  token_at s = (Token IDENTIFIER val p, s') ->
  match val with
  | c :: _ => isdigit c = false
  | [] => False
  end
  /\ forallb is_identifier val = true
  /\ val = between_chars s p (pos s')
  /\ p = pos s
  /\ match nth_error (buffer s) (pos s') with
     | Some d => is_identifier d = false
     | None => True
     end.
Proof.
  intros H. token_at_cases H.
  injection H as <- <- <-. cbn [pos set_pos].
  rewrite (slice_head s _ _ c Hc).
  repeat split.
  - exact Hdigit.
  - cbn [forallb]. rewrite Hident. apply run_forallb.
  - symmetry. apply between_from. exact Hc.
  - rewrite <- nth_error_skipn.
    destruct (nth_error (skipn _ _) _) as [d|] eqn:Hd; [|exact I].
    exact (run_stops is_identifier _ d Hd).
Qed.

Lemma char_is_eq (char : option ascii) (c : ascii) :
  char_is char c = true -> char = Some c.
Proof.
  destruct char as [d|]; [|discriminate]. cbn.
  intros H. apply Ascii.eqb_eq in H. congruence.
Qed.

Lemma token_at_string (s : Lexer) (val : list ascii) (p : nat) (s' : Lexer) :
  token_at s = (Token STRING val p, s') ->
  forallb inside_string val = true
  /\ between_chars s p (pos s') = "034"%char :: val ++ ["034"%char]
  /\ p = pos s
  /\ pos s' = p + List.length val + 2.
Proof.
  intros H. token_at_cases H.
  injection H as <- <- <-. cbn [pos set_pos].
  apply Ascii.eqb_eq in Hquote. subst c.
  apply char_is_eq in Hclose.
  set (k := maximal_run inside_string (skipn (pos s + 1) (buffer s))) in *.
  assert (Hval : slice s (pos s + 1) (pos s + 1 + k)
                 = firstn k (skipn (pos s + 1) (buffer s))).
  { unfold slice. f_equal. lia. }
  assert (Hlen : List.length (firstn k (skipn (pos s + 1) (buffer s))) = k).
  { apply firstn_length_le. subst k. apply maximal_run_le. }
  rewrite Hval. repeat split.
  - apply run_forallb.
  - rewrite <- slice_is_between.
    rewrite (slice_last s (pos s) (pos s + 1 + k) "034" ltac:(lia) Hclose).
    rewrite (slice_head s _ _ "034" Hc). reflexivity.
  - rewrite Hlen. lia.
Qed.

Lemma token_at_fixed (s : Lexer) (ty : TokenTypes) (val : list ascii)
      (p : nat) (s' : Lexer) :
  token_at s = (Token ty val p, s') ->
  match ty with
  | BOOLEAN => val = ["#"; "t"]%char \/ val = ["#"; "f"]%char
  | LPAREN => val = ["("]%char
  | RPAREN => val = [")"]%char
  | QUOTE => val = ["'"]%char
  | _ => True
  end.
Proof.
  intros H. token_at_cases H; injection H as <- <- <- <-; try exact I.
  - apply andb_true_iff in Hbool. destruct Hbool as [Hsharp Htf].
    apply Ascii.eqb_eq in Hsharp. subst c.
    replace (pos s + 2) with (pos s + 1 + 1) by lia.
    rewrite (slice_head s _ _ "#" Hc).
    destruct (nth_error (buffer s) (pos s + 1)) as [x|] eqn:Hx;
      [|discriminate Htf].
    rewrite (skipn_cons_nth _ _ _ Hx). cbn [firstn].
    cbn in Htf. rewrite orb_false_r in Htf.
    apply orb_true_iff in Htf.
    destruct Htf as [Ht|Hf]; apply Ascii.eqb_eq in Ht || apply Ascii.eqb_eq in Hf;
      subst x; [left | right]; reflexivity.
  - match goal with E : Ascii.eqb c "(" = true |- _ =>
      apply Ascii.eqb_eq in E; subst c end. reflexivity.
  - match goal with E : Ascii.eqb c ")" = true |- _ =>
      apply Ascii.eqb_eq in E; subst c end. reflexivity.
  - match goal with E : Ascii.eqb c "'" = true |- _ =>
      apply Ascii.eqb_eq in E; subst c end. reflexivity.
Qed.

(** A character that starts no token. *)
Lemma token_at_error (s : Lexer) (p : nat) (s' : Lexer) :
  token_at s = (Error p, s') ->
  s' = s /\ p = pos s
  /\ exists c,
      nth_error (buffer s) p = Some c
      /\ (if Ascii.eqb c "034"
          then match nth_error (buffer s)
                       (p + 1 + maximal_run inside_string
                                            (skipn (p + 1) (buffer s))) with
               | Some d => d = "010"%char
               | None => True
               end
          else starts_no_token c = true).
Proof.
  intros H. token_at_cases H; injection H as <- <-;
    (split; [reflexivity|]; split; [reflexivity|]);
    exists c; (split; [exact Hc|]).
  - rewrite Hquote.
    destruct (nth_error (buffer s) (pos s + 1 + _)) as [d|] eqn:Hd; [|exact I].
    rewrite <- nth_error_skipn in Hd.
    pose proof (run_stops inside_string _ d Hd) as Hstop.
    cbn [char_is] in Hclose. unfold inside_string in Hstop.
    rewrite Hclose in Hstop. cbn in Hstop.
    apply negb_false_iff in Hstop. apply Ascii.eqb_eq in Hstop. exact Hstop.
  - rewrite Hquote. unfold starts_no_token.
    rewrite Hdigit, Hident.
    repeat match goal with E : Ascii.eqb c _ = false |- _ =>
                             rewrite E; clear E end.
    reflexivity.
Qed.

Lemma next_token_inv (s : Lexer) (r : Returned) (s' : Lexer) :
  next_token s = Some (r, s') ->
  exists s1,
    token_at s1 = (r, s')
    /\ buffer s1 = buffer s
    /\ pos s <= pos s1
    /\ skippable s1 = false.
Proof.
  intros H. destruct (next_token_closed s) as (s1 & Hnt & Hb & Hp & Hg).
  exists s1. rewrite Hnt in H. injection H as H. auto.
Qed.

(** X1.  A [NUMBER] token is a maximal run of digits: its text is not
    empty, holds digits only, is the text of the buffer from the position
    of the token to the cursor, and the character at the cursor, if there
    is one, is not a digit. *)
Theorem number_token_is_maximal_digit_run
        (s : Lexer) (val : list ascii) (p : nat) (s' : Lexer) :
  next_token s = Some (Token NUMBER val p, s') ->
  val <> []
  /\ forallb isdigit val = true
  /\ val = between_chars s p (pos s')
  /\ match nth_error (buffer s) (pos s') with
     | Some d => isdigit d = false
     | None => True
     end.
Proof.
  intros H. apply next_token_inv in H.
  destruct H as (s1 & Hat & Hb & _ & _).
  apply token_at_number in Hat. destruct Hat as (H1 & H2 & H3 & _ & H5).
  rewrite Hb in H5. rewrite (between_same_buffer s s1 _ _ Hb) in H3. auto.
Qed.

(** On [12abc] the token is [12] and the cursor is left at the [a]. *)
Lemma number_token_is_maximal_digit_run_witness :
  ["1"; "2"]%char <> []
  /\ forallb isdigit ["1"; "2"]%char = true
  /\ ["1"; "2"]%char = between_chars (lexer_of "12abc") 0 2
  /\ isdigit "a" = false.
Proof.
  exact (number_token_is_maximal_digit_run
           (lexer_of "12abc") ["1"; "2"]%char 0 (set_pos (lexer_of "12abc") 2)
           eq_refl).
Defined.

(** X2.  An [IDENTIFIER] token is a maximal run of identifier characters
    that does not start with a digit: its text holds identifier characters
    only, is the text of the buffer from the position of the token to the
    cursor, and the character at the cursor, if there is one, is not an
    identifier character. *)
Theorem identifier_token_is_maximal_run
        (s : Lexer) (val : list ascii) (p : nat) (s' : Lexer) :
  next_token s = Some (Token IDENTIFIER val p, s') ->
  match val with
  | c :: _ => isdigit c = false
  | [] => False
  end
  /\ forallb is_identifier val = true
  /\ val = between_chars s p (pos s')
  /\ match nth_error (buffer s) (pos s') with
     | Some d => is_identifier d = false
     | None => True
     end.
Proof.
  intros H. apply next_token_inv in H.
  destruct H as (s1 & Hat & Hb & _ & _).
  apply token_at_identifier in Hat. destruct Hat as (H1 & H2 & H3 & _ & H5).
  rewrite Hb in H5. rewrite (between_same_buffer s s1 _ _ Hb) in H3. auto.
Qed.

(** On [set-car! p] the token is [set-car!] and the cursor is left at the
    blank. *)
Lemma identifier_token_is_maximal_run_witness :
  isdigit "s" = false
  /\ forallb is_identifier (list_ascii_of_string "set-car!") = true
  /\ list_ascii_of_string "set-car!" = between_chars (lexer_of "set-car! p") 0 8
  /\ is_identifier " " = false.
Proof.
  exact (identifier_token_is_maximal_run
           (lexer_of "set-car! p") (list_ascii_of_string "set-car!") 0
           (set_pos (lexer_of "set-car! p") 8) eq_refl).
Defined.

(** X3.  A [STRING] token stands for a quote, its text and a quote in the
    buffer, from the position of the token to the cursor; its text holds
    neither a quote nor a newline. *)
Theorem string_token_is_between_quotes
        (s : Lexer) (val : list ascii) (p : nat) (s' : Lexer) :
  next_token s = Some (Token STRING val p, s') ->
  forallb inside_string val = true
  /\ between_chars s p (pos s') = "034"%char :: val ++ ["034"%char]
  /\ pos s' = p + List.length val + 2.
Proof.
  intros H. apply next_token_inv in H.
  destruct H as (s1 & Hat & Hb & _ & _).
  apply token_at_string in Hat. destruct Hat as (H1 & H2 & _ & H4).
  rewrite (between_same_buffer s s1 _ _ Hb) in H2. auto.
Qed.

(** A string of two characters after a blank. *)
Lemma string_token_is_between_quotes_witness :
  forallb inside_string ["h"; "i"]%char = true
  /\ between_chars (init [" "; "034"; "h"; "i"; "034"; ")"]%char) 1 5
     = ["034"; "h"; "i"; "034"]%char
  /\ 5 = 1 + 2 + 2.
Proof.
  exact (string_token_is_between_quotes
           (init [" "; "034"; "h"; "i"; "034"; ")"]%char) ["h"; "i"]%char 1
           (set_pos (init [" "; "034"; "h"; "i"; "034"; ")"]%char) 5) eq_refl).
Defined.

(** X4.  The text of a [BOOLEAN] token is [#t] or [#f]; the text of an
    [LPAREN], [RPAREN] and [QUOTE] token is the one character it is named
    after. *)
Theorem fixed_token_text
        (s : Lexer) (ty : TokenTypes) (val : list ascii) (p : nat) (s' : Lexer) :
  next_token s = Some (Token ty val p, s') ->
  match ty with
  | BOOLEAN => val = ["#"; "t"]%char \/ val = ["#"; "f"]%char
  | LPAREN => val = ["("]%char
  | RPAREN => val = [")"]%char
  | QUOTE => val = ["'"]%char
  | _ => True
  end.
Proof.
  intros H. apply next_token_inv in H.
  destruct H as (s1 & Hat & _). exact (token_at_fixed s1 ty val p s' Hat).
Qed.

(** The first token of [#true] is the boolean [#t]. *)
Lemma fixed_token_text_witness :
  ["#"; "t"]%char = ["#"; "t"]%char \/ ["#"; "t"]%char = ["#"; "f"]%char.
Proof.
  exact (fixed_token_text (lexer_of "#true") BOOLEAN ["#"; "t"]%char 0
                          (set_pos (lexer_of "#true") 2) eq_refl).
Defined.

(** X5.  An [Error] is returned only at a quote whose string ends with
    the buffer or at a newline, or at a character that starts no token; its
    position is the cursor the call leaves, and a blank or a comment is
    never an error. *)
Theorem error_only_where_no_token_starts (s : Lexer) (p : nat) (s' : Lexer) :
  next_token s = Some (Error p, s') ->
  pos s' = p /\ buffer s' = buffer s /\ skippable s' = false
  /\ exists c,
      nth_error (buffer s) p = Some c
      /\ (if Ascii.eqb c "034"
          then match nth_error (buffer s)
                       (p + 1 + maximal_run inside_string
                                            (skipn (p + 1) (buffer s))) with
               | Some d => d = "010"%char
               | None => True
               end
          else starts_no_token c = true).
Proof.
  intros H. apply next_token_inv in H.
  destruct H as (s1 & Hat & Hb & _ & Hg).
  apply token_at_error in Hat. destruct Hat as (-> & -> & c & Hc & Hwhy).
  rewrite Hb in Hc, Hwhy. repeat split; try assumption; try reflexivity.
  exists c. auto.
Qed.

(** The sharp sign of [#x] starts no token. *)
Lemma error_only_where_no_token_starts_witness :
  exists c, nth_error (buffer (lexer_of "#x")) 0 = Some c
            /\ (if Ascii.eqb c "034" then
                  match nth_error (buffer (lexer_of "#x"))
                          (0 + 1 + maximal_run inside_string
                                     (skipn (0 + 1) (buffer (lexer_of "#x")))) with
                  | Some d => d = "010"%char
                  | None => True
                  end
                else starts_no_token c = true).
Proof.
  exact (proj2 (proj2 (proj2
           (error_only_where_no_token_starts (lexer_of "#x") 0 (lexer_of "#x")
                                             eq_refl)))).
Defined.

(** ** Blanks and comments *)

Lemma garbage_cases (c : ascii) :
  is_garbage c = true ->
  Ascii.eqb c COMMENT_CHAR = false /\ is_identifier c = false
  /\ isdigit c = false /\ starts_no_token c = true
  /\ Ascii.eqb c "034" = false /\ Ascii.eqb c "#" = false.
Proof.
  unfold is_garbage, char_in, GARBAGE_CHARS. cbn [existsb].
  rewrite !orb_true_iff. rewrite !Ascii.eqb_eq.
  intros [H|[H|[H|[H|H]]]]; try discriminate H; subst c; repeat split.
Qed.

Lemma skippable_char (s : Lexer) (c : ascii) :
  nth_error (buffer s) (pos s) = Some c ->
  skippable s = is_garbage c || Ascii.eqb c COMMENT_CHAR.
Proof. exact (skippable_here s c). Qed.

Lemma skip_turn_blank (inner : nat) (s : Lexer) (c : ascii) :
  List.length (buffer s) < inner ->
  nth_error (buffer s) (pos s) = Some c ->
  is_garbage c = true ->
  skip_turn inner s
  = Some (set_pos s (pos s + maximal_run is_garbage (skipn (pos s) (buffer s)))).
Proof.
  intros Hi Hc Hg. unfold skip_turn, _skip_comments.
  rewrite get_char_here, Hc. cbn [char_is].
  destruct (garbage_cases c Hg) as (-> & _). cbn [obind].
  apply skip_whitespace_run. lia.
Qed.

Lemma skip_turn_comment (inner : nat) (s : Lexer) :
  List.length (buffer s) < inner ->
  nth_error (buffer s) (pos s) = Some COMMENT_CHAR ->
  skip_turn inner s
  = Some (let eol := pos s + maximal_run not_newline (skipn (pos s) (buffer s)) in
          set_pos s (eol + maximal_run is_garbage (skipn eol (buffer s)))).
Proof.
  intros Hi Hc. unfold skip_turn, _skip_comments.
  rewrite get_char_here, Hc. cbn [char_is].
  change (Ascii.eqb COMMENT_CHAR COMMENT_CHAR) with true. cbv iota.
  rewrite comment_loop_run by lia. cbn [obind].
  rewrite skip_whitespace_run by (cbn [buffer pos set_pos]; lia).
  reflexivity.
Qed.

(** A turn of the loop moves the cursor forward. *)
Lemma skip_turn_advances (inner : nat) (s : Lexer) :
  List.length (buffer s) < inner ->
  skippable s = true ->
  exists s2, skip_turn inner s = Some s2
             /\ buffer s2 = buffer s /\ pos s < pos s2.
Proof.
  intros Hi Hs.
  destruct (nth_error (buffer s) (pos s)) as [c|] eqn:Hc.
  2:{ unfold skippable in Hs. rewrite get_char_here, Hc in Hs. discriminate. }
  rewrite (skippable_char s c Hc) in Hs.
  destruct (is_garbage c) eqn:Hg.
  - rewrite (skip_turn_blank inner s c Hi Hc Hg).
    eexists. split; [reflexivity|]. cbn [buffer pos set_pos].
    split; [reflexivity|].
    rewrite (skipn_cons_nth _ _ _ Hc). cbn [maximal_run]. rewrite Hg. lia.
  - cbn [orb] in Hs. apply Ascii.eqb_eq in Hs. subst c.
    rewrite (skip_turn_comment inner s Hi Hc). cbv zeta.
    eexists. split; [reflexivity|]. cbn [buffer pos set_pos].
    split; [reflexivity|].
    rewrite (skipn_cons_nth _ _ _ Hc). cbn [maximal_run].
    change (not_newline COMMENT_CHAR) with true. cbv iota. lia.
Qed.

Lemma skip_garbage_unfold (fuel inner : nat) (s : Lexer) :
  skip_garbage (S fuel) inner s
  = if skippable s
    then obind (skip_turn inner s) (skip_garbage fuel inner)
    else Some s.
Proof.
  cbn [skip_garbage]. fold (skippable s).
  destruct (skippable s); [|reflexivity].
  unfold skip_turn. destruct (_skip_comments inner s); reflexivity.
Qed.

(** The loop does not depend on the fuel, once there is enough of it. *)
Lemma skip_garbage_fuel (inner : nat) (f1 : nat) :
  forall f2 s,
    List.length (buffer s) - pos s < f1 ->
    List.length (buffer s) - pos s < f2 ->
    List.length (buffer s) < inner ->
    skip_garbage f1 inner s = skip_garbage f2 inner s.
Proof.
  induction f1 as [|f1 IH]; intros f2 s H1 H2 Hi; [lia|].
  destruct f2 as [|f2]; [lia|].
  rewrite !skip_garbage_unfold.
  destruct (skippable s) eqn:Hs; [|reflexivity].
  destruct (skip_turn_advances inner s Hi Hs) as (s2 & -> & Hb & Hp).
  cbn [obind].
  assert (pos s < List.length (buffer s)).
  { unfold skippable in Hs. rewrite get_char_here in Hs.
    apply nth_error_Some. intros E. rewrite E in Hs. discriminate. }
  apply IH; rewrite Hb; lia.
Qed.

(** A call at a blank or at a comment is the call after one turn of the
    loop. *)
Lemma next_token_skip_turn (s s2 : Lexer) :
  skippable s = true ->
  skip_turn (S (List.length (buffer s))) s = Some s2 ->
  next_token s = next_token s2.
Proof.
  intros Hs Hturn.
  destruct (skip_turn_advances (S (List.length (buffer s))) s
                               ltac:(lia) Hs) as (s2' & Hturn' & Hb & Hp).
  rewrite Hturn in Hturn'. injection Hturn' as <-.
  assert (pos s < List.length (buffer s)).
  { unfold skippable in Hs. rewrite get_char_here in Hs.
    apply nth_error_Some. intros E. rewrite E in Hs. discriminate. }
  unfold next_token, next_token_fuel. rewrite Hb.
  rewrite skip_garbage_unfold, Hs, Hturn. cbn [obind].
  rewrite (skip_garbage_fuel _ (List.length (buffer s))
                             (S (List.length (buffer s))) s2);
    try rewrite Hb; try lia.
  reflexivity.
Qed.

Lemma run_split (P : ascii -> bool) (l : list ascii) :
  forall n, n <= List.length l -> forallb P (firstn n l) = true ->
            maximal_run P l = n + maximal_run P (skipn n l).
Proof.
  induction l as [|c l IH]; intros [|n] Hn Hall; try reflexivity.
  - cbn in Hn. lia.
  - cbn [firstn forallb] in Hall. apply andb_true_iff in Hall.
    destruct Hall as [Hc Hall]. cbn [maximal_run skipn]. rewrite Hc.
    cbn in Hn. rewrite (IH n) by (lia || assumption). reflexivity.
Qed.

(** A call at a run of blanks is the call after the run. *)
Lemma next_token_after_blanks (s : Lexer) :
  next_token s
  = next_token (set_pos s (pos s + maximal_run is_garbage
                                               (skipn (pos s) (buffer s)))).
Proof.
  destruct (nth_error (buffer s) (pos s)) as [c|] eqn:Hc.
  2:{ rewrite (skipn_nil_nth _ _ Hc). cbn [maximal_run].
      rewrite Nat.add_0_r, set_pos_same. reflexivity. }
  rewrite (skipn_cons_nth _ _ _ Hc). cbn [maximal_run].
  destruct (is_garbage c) eqn:Hg.
  2:{ rewrite Nat.add_0_r, set_pos_same. reflexivity. }
  apply next_token_skip_turn.
  - rewrite (skippable_char s c Hc), Hg. reflexivity.
  - rewrite (skip_turn_blank (S (List.length (buffer s))) s c
                             ltac:(lia) Hc Hg).
    rewrite (skipn_cons_nth _ _ _ Hc). cbn [maximal_run]. rewrite Hg.
    reflexivity.
Qed.

Lemma skipn_prefix (pre l : list ascii) :
  skipn (List.length pre) (pre ++ l) = l.
Proof. induction pre as [|a pre IH]; [reflexivity | exact IH]. Qed.

(** A call at blanks is the call after them. *)
Lemma next_token_over_blanks (s : Lexer) (q : nat) :
  pos s <= q -> q <= List.length (buffer s) ->
  forallb is_garbage (between_chars s (pos s) q) = true ->
  next_token s = next_token (set_pos s q).
Proof.
  intros Hq Hlen Hall.
  rewrite (next_token_after_blanks s), (next_token_after_blanks (set_pos s q)).
  cbn [buffer pos set_pos]. unfold set_pos. cbn [buffer]. do 2 f_equal.
  unfold between_chars in Hall.
  rewrite (run_split is_garbage (skipn (pos s) (buffer s)) (q - pos s)).
  - rewrite skipn_skipn. replace (q - pos s + pos s) with q by lia. lia.
  - rewrite length_skipn. lia.
  - exact Hall.
Qed.

(** X6.  Blanks before a token do not count: when the characters from
    the cursor up to [q] are blanks, the call at the cursor is the call at
    [q]. *)
Theorem blanks_are_skipped (s : Lexer) (q : nat) :
  pos s <= q -> q <= List.length (buffer s) ->
  forallb is_garbage (between_chars s (pos s) q) = true ->
  next_token s = next_token (set_pos s q).
Proof. exact (next_token_over_blanks s q). Qed.

(** Three blanks before a parenthesis. *)
Lemma blanks_are_skipped_witness :
  next_token (lexer_of "   (") = next_token (set_pos (lexer_of "   (") 3).
Proof.
  apply (blanks_are_skipped (lexer_of "   (") 3); [cbn; lia | cbn; lia |].
  reflexivity.
Defined.

(** X7.  A comment runs from its semicolon to the end of the line: the
    call at the semicolon is the call at the newline that ends the line,
    or at the end of the buffer. *)
Theorem comment_is_skipped (pre body tail : list ascii) :
  forallb not_newline body = true ->
  maximal_run not_newline tail = 0 ->
  next_token {| buffer := pre ++ COMMENT_CHAR :: body ++ tail;
                pos := List.length pre |}
  = next_token {| buffer := pre ++ COMMENT_CHAR :: body ++ tail;
                  pos := List.length pre + 1 + List.length body |}.
Proof.
  intros Hbody Htail.
  set (s := {| buffer := pre ++ COMMENT_CHAR :: body ++ tail;
               pos := List.length pre |}).
  assert (Hc : nth_error (buffer s) (pos s) = Some COMMENT_CHAR)
    by apply nth_error_middle.
  assert (Heol : pos s + maximal_run not_newline (skipn (pos s) (buffer s))
                 = List.length pre + 1 + List.length body).
  { cbn [buffer pos s]. rewrite skipn_prefix.
    change (COMMENT_CHAR :: body ++ tail) with ((COMMENT_CHAR :: body) ++ tail).
    rewrite maximal_run_app; [cbn [List.length]; lia | | exact Htail].
    cbn [forallb]. rewrite Hbody. reflexivity. }
  assert (Hskip : skippable s = true)
    by (rewrite (skippable_char s _ Hc); reflexivity).
  rewrite (next_token_skip_turn
             s _ Hskip
             (skip_turn_comment (S (List.length (buffer s))) s
                                (Nat.lt_succ_diag_r _) Hc)).
  cbv zeta. rewrite Heol.
  change {| buffer := pre ++ COMMENT_CHAR :: body ++ tail;
            pos := List.length pre + 1 + List.length body |}
    with (set_pos s (List.length pre + 1 + List.length body)).
  rewrite (next_token_after_blanks
             (set_pos s (List.length pre + 1 + List.length body))).
  reflexivity.
Qed.

(** A comment between two tokens. *)
Lemma comment_is_skipped_witness :
  next_token {| buffer := list_ascii_of_string "a ; b c" ++ ["010"; "d"]%char;
                pos := 2 |}
  = next_token {| buffer := list_ascii_of_string "a ; b c" ++ ["010"; "d"]%char;
                  pos := 7 |}.
Proof.
  exact (comment_is_skipped ["a"; " "]%char [" "; "b"; " "; "c"]%char
                            ["010"; "d"]%char eq_refl eq_refl).
Defined.

Lemma token_at_none (s s' : Lexer) :
  token_at s = (PyNone, s') ->
  s' = s /\ List.length (buffer s) <= pos s.
Proof.
  unfold token_at. cbv zeta.
  destruct (nth_error (buffer s) (pos s)) as [c|] eqn:Hc.
  - repeat match goal with
           | |- context [if ?b then _ else _] => destruct b
           end; discriminate.
  - intros H. injection H as <-. split; [reflexivity|].
    apply nth_error_None. exact Hc.
Qed.

Lemma next_token_at_end (s : Lexer) :
  List.length (buffer s) <= pos s -> next_token s = Some (PyNone, s).
Proof.
  intros H. apply nth_error_None in H.
  rewrite next_token_unskipped.
  - unfold token_at. rewrite H. reflexivity.
  - unfold skippable. rewrite get_char_here, H. reflexivity.
Qed.

(** X8.  The end of the input: at or past the end of the buffer
    [next_token] returns [None] and leaves the lexer as it is; it does so
    as well, with the cursor at the end, when only blanks are left; and
    after a [None] every later call returns [None]. *)
Theorem end_of_input_is_final (s : Lexer) :
  (List.length (buffer s) <= pos s -> next_token s = Some (PyNone, s))
  /\ (pos s <= List.length (buffer s) ->
      forallb is_garbage (skipn (pos s) (buffer s)) = true ->
      next_token s = Some (PyNone, set_pos s (List.length (buffer s))))
  /\ (forall s', next_token s = Some (PyNone, s') ->
                 next_token s' = Some (PyNone, s')).
Proof.
  split; [exact (next_token_at_end s)|]. split.
  - intros Hp Hall.
    rewrite (next_token_over_blanks s (List.length (buffer s)) Hp
                                    (Nat.le_refl _)).
    + apply next_token_at_end. cbn [buffer pos set_pos]. lia.
    + unfold between_chars. rewrite firstn_all2; [exact Hall|].
      rewrite length_skipn. lia.
  - intros s' H. apply next_token_inv in H.
    destruct H as (s1 & Hat & _). apply token_at_none in Hat.
    destruct Hat as (-> & Hend). apply next_token_at_end. exact Hend.
Qed.

(** The empty buffer, a buffer of two blanks, and the call after. *)
Lemma end_of_input_is_final_witness :
  next_token (lexer_of "") = Some (PyNone, lexer_of "")
  /\ next_token (lexer_of "  ") = Some (PyNone, set_pos (lexer_of "  ") 2)
  /\ next_token (set_pos (lexer_of "  ") 2)
     = Some (PyNone, set_pos (lexer_of "  ") 2).
Proof.
  split; [|split].
  - apply (proj1 (end_of_input_is_final (lexer_of ""))). cbn. lia.
  - apply (proj1 (proj2 (end_of_input_is_final (lexer_of "  "))));
      [cbn; lia | reflexivity].
  - apply (proj2 (proj2 (end_of_input_is_final (lexer_of "  ")))).
    reflexivity.
Defined.

(** ** The sequence of tokens *)

Lemma error_in_buffer (s : Lexer) (p : nat) (s' : Lexer) :
  next_token s = Some (Error p, s') -> p < List.length (buffer s).
Proof.
  intros H. apply next_token_inv in H.
  destruct H as (s1 & Hat & Hb & _ & _).
  apply token_at_error in Hat. destruct Hat as (_ & _ & c & Hc & _).
  rewrite <- Hb. apply nth_error_Some. congruence.
Qed.

(** X9.  The tokens of successive calls come in the order of the buffer
    and do not overlap: each one starts at or after the end of the one
    before, at or after the first cursor, and ends within the buffer; an
    [Error] or the [None] of the end of the input is the last of them. *)
Theorem tokens_in_order (n : nat) :
  forall s, in_order (pos s) (List.length (buffer s)) (tokens n s).
Proof.
  induction n as [|n IH]; intros s; [exact I|].
  cbn [tokens].
  destruct (next_token_returns s) as (r & s' & Hnt & Hb & Hcur & _).
  rewrite Hnt. destruct r as [ty val p|p| |]; cbn [cursor_after] in Hcur.
  - destruct Hcur as (Hp & Hspan & Hpos & Hle). cbn [in_order].
    repeat split; try lia.
    specialize (IH s'). rewrite Hb, Hpos in IH. exact IH.
  - destruct Hcur as (Hp & _). cbn [in_order].
    repeat split; [exact Hp|]. exact (error_in_buffer s p s' Hnt).
  - reflexivity.
  - contradiction.
Qed.

Lemma tokens_stable (n : nat) :
  forall s m, List.length (buffer s) - pos s < n -> n <= m ->
              tokens m s = tokens n s.
Proof.
  induction n as [|n IH]; intros s m Hn Hm; [lia|].
  destruct m as [|m]; [lia|]. cbn [tokens].
  destruct (next_token_returns s) as (r & s' & Hnt & Hb & Hcur & _).
  rewrite Hnt. destruct r as [ty val p|p| |]; try reflexivity.
  cbn [cursor_after] in Hcur. destruct Hcur as (Hp & Hspan & Hpos & Hle).
  f_equal. apply IH; [rewrite Hb|]; lia.
Qed.

(** X10.  Tokenizing ends: within one call more than there are characters
    from the cursor to the end of the buffer, the sequence of calls is a
    list of tokens followed by the end of the input or by an [Error], and
    more calls give the same sequence. *)
Theorem tokens_end (n : nat) :
  forall s,
    List.length (buffer s) - pos s < n ->
    (exists toks r,
        tokens n s = toks ++ [r]
        /\ forallb is_token toks = true /\ is_end r = true)
    /\ (forall m, n <= m -> tokens m s = tokens n s).
Proof.
  intros s Hn. split; [|intros m Hm; apply tokens_stable; assumption].
  revert s Hn. induction n as [|n IH]; intros s Hn; [lia|].
  cbn [tokens].
  destruct (next_token_returns s) as (r & s' & Hnt & Hb & Hcur & _).
  rewrite Hnt. destruct r as [ty val p|p| |]; cbn [cursor_after] in Hcur.
  - destruct Hcur as (Hp & Hspan & Hpos & Hle).
    destruct (IH s') as (toks & r & Heq & Htoks & Hend);
      [rewrite Hb; lia|].
    exists (Token ty val p :: toks), r. rewrite Heq. repeat split; assumption.
  - exists [], (Error p). repeat split.
  - exists [], PyNone. repeat split.
  - contradiction.
Qed.

(** The three calls on [12abc]. *)
Lemma tokens_end_witness :
  (exists toks r,
      tokens 6 (lexer_of "12abc") = toks ++ [r]
      /\ forallb is_token toks = true /\ is_end r = true)
  /\ tokens 9 (lexer_of "12abc") = tokens 6 (lexer_of "12abc").
Proof.
  destruct (tokens_end 6 (lexer_of "12abc")) as (Hend & Hstable);
    [cbn; lia|].
  split; [exact Hend | apply Hstable; lia].
Defined.

(** ** From the characters to the token *)

Lemma not_skippable_char (s : Lexer) (c : ascii) :
  nth_error (buffer s) (pos s) = Some c ->
  is_garbage c = false -> Ascii.eqb c COMMENT_CHAR = false ->
  skippable s = false.
Proof.
  intros Hc Hg Hsemi. rewrite (skippable_char s c Hc), Hg, Hsemi. reflexivity.
Qed.

Lemma digit_cases (c : ascii) :
  isdigit c = true ->
  is_garbage c = false /\ Ascii.eqb c COMMENT_CHAR = false
  /\ Ascii.eqb c "#" = false.
Proof.
  intros H. repeat split.
  - destruct (is_garbage c) eqn:Hg; [|reflexivity].
    destruct (garbage_cases c Hg) as (_ & _ & Hd & _). congruence.
  - destruct (Ascii.eqb c COMMENT_CHAR) eqn:E; [|reflexivity].
    apply Ascii.eqb_eq in E. subst c. discriminate H.
  - destruct (Ascii.eqb c "#") eqn:E; [|reflexivity].
    apply Ascii.eqb_eq in E. subst c. discriminate H.
Qed.

Lemma identifier_cases (c : ascii) :
  is_identifier c = true ->
  is_garbage c = false /\ Ascii.eqb c COMMENT_CHAR = false
  /\ Ascii.eqb c "#" = false /\ Ascii.eqb c "034" = false.
Proof.
  intros H. repeat split.
  - destruct (is_garbage c) eqn:Hg; [|reflexivity].
    destruct (garbage_cases c Hg) as (_ & Hi & _). congruence.
  - destruct (Ascii.eqb c COMMENT_CHAR) eqn:E; [|reflexivity].
    apply Ascii.eqb_eq in E. subst c. discriminate H.
  - destruct (Ascii.eqb c "#") eqn:E; [|reflexivity].
    apply Ascii.eqb_eq in E. subst c. discriminate H.
  - destruct (Ascii.eqb c "034") eqn:E; [|reflexivity].
    apply Ascii.eqb_eq in E. subst c. discriminate H.
Qed.

Lemma number_forward (pre : list ascii) (d : ascii) (ds post : list ascii) :
  forallb isdigit (d :: ds) = true ->
  maximal_run isdigit post = 0 ->
  next_token {| buffer := pre ++ (d :: ds) ++ post; pos := List.length pre |}
  = Some (Token NUMBER (d :: ds) (List.length pre),
          {| buffer := pre ++ (d :: ds) ++ post;
             pos := List.length pre + List.length (d :: ds) |}).
Proof.
  intros Hall Hpost. cbn [forallb] in Hall. apply andb_true_iff in Hall.
  destruct Hall as [Hd Hds].
  set (s := {| buffer := pre ++ (d :: ds) ++ post; pos := List.length pre |}).
  assert (Hc : nth_error (buffer s) (pos s) = Some d)
    by apply nth_error_middle.
  destruct (digit_cases d Hd) as (Hg & Hsemi & Hsharp).
  rewrite (next_token_unskipped s (not_skippable_char s d Hc Hg Hsemi)).
  unfold token_at. cbv zeta. rewrite Hc, Hsharp, Hd. cbn [andb].
  rewrite (slice_head s _ _ d Hc).
  cbn [buffer pos s app]. rewrite skipn_past.
  rewrite (maximal_run_app isdigit ds post Hds Hpost), firstn_run.
  unfold set_pos. cbn [buffer List.length]. do 3 f_equal. lia.
Qed.

Lemma identifier_forward (pre : list ascii) (c : ascii) (run post : list ascii) :
  is_identifier c = true -> isdigit c = false ->
  forallb is_identifier run = true ->
  maximal_run is_identifier post = 0 ->
  next_token {| buffer := pre ++ (c :: run) ++ post; pos := List.length pre |}
  = Some (Token IDENTIFIER (c :: run) (List.length pre),
          {| buffer := pre ++ (c :: run) ++ post;
             pos := List.length pre + List.length (c :: run) |}).
Proof.
  intros Hid Hd Hrun Hpost.
  set (s := {| buffer := pre ++ (c :: run) ++ post; pos := List.length pre |}).
  assert (Hc : nth_error (buffer s) (pos s) = Some c)
    by apply nth_error_middle.
  destruct (identifier_cases c Hid) as (Hg & Hsemi & Hsharp & Hquote).
  rewrite (next_token_unskipped s (not_skippable_char s c Hc Hg Hsemi)).
  unfold token_at. cbv zeta. rewrite Hc, Hsharp, Hd, Hquote, Hid. cbn [andb].
  rewrite (slice_head s _ _ c Hc).
  cbn [buffer pos s app]. rewrite skipn_past.
  rewrite (maximal_run_app is_identifier run post Hrun Hpost), firstn_run.
  unfold set_pos. cbn [buffer List.length]. do 3 f_equal. lia.
Qed.

(** X11.  A run of digits that no digit follows is one [NUMBER] token,
    whatever comes after it, a letter included: the cursor is left just
    after the digits. *)
Theorem digit_run_is_one_number (pre digits post : list ascii) :
  digits <> [] ->
  forallb isdigit digits = true ->
  maximal_run isdigit post = 0 ->
  next_token {| buffer := pre ++ digits ++ post; pos := List.length pre |}
  = Some (Token NUMBER digits (List.length pre),
          {| buffer := pre ++ digits ++ post;
             pos := List.length pre + List.length digits |}).
Proof.
  intros Hne Hall Hpost. destruct digits as [|d ds]; [contradiction|].
  exact (number_forward pre d ds post Hall Hpost).
Qed.

(** The number of [(+ 12abc)]. *)
Lemma digit_run_is_one_number_witness :
  next_token {| buffer := list_ascii_of_string "(+ 12abc)"; pos := 3 |}
  = Some (Token NUMBER ["1"; "2"]%char 3,
          {| buffer := list_ascii_of_string "(+ 12abc)"; pos := 5 |}).
Proof.
  apply (digit_run_is_one_number ["("; "+"; " "]%char ["1"; "2"]%char
                                 ["a"; "b"; "c"; ")"]%char);
    [discriminate | reflexivity | reflexivity].
Defined.

(** X12.  A run of identifier characters that starts with none of the
    digits and that no identifier character follows is one [IDENTIFIER]
    token; digits inside the run belong to it. *)
Theorem identifier_run_is_one_token
        (pre : list ascii) (c : ascii) (run post : list ascii) :
  is_identifier c = true -> isdigit c = false ->
  forallb is_identifier run = true ->
  maximal_run is_identifier post = 0 ->
  next_token {| buffer := pre ++ (c :: run) ++ post; pos := List.length pre |}
  = Some (Token IDENTIFIER (c :: run) (List.length pre),
          {| buffer := pre ++ (c :: run) ++ post;
             pos := List.length pre + List.length (c :: run) |}).
Proof. exact (identifier_forward pre c run post). Qed.

(** The identifier of [12abc34)], after the number. *)
Lemma identifier_run_is_one_token_witness :
  next_token {| buffer := list_ascii_of_string "12abc34)"; pos := 2 |}
  = Some (Token IDENTIFIER (list_ascii_of_string "abc34") 2,
          {| buffer := list_ascii_of_string "12abc34)"; pos := 7 |}).
Proof.
  exact (identifier_run_is_one_token
           ["1"; "2"]%char "a" ["b"; "c"; "3"; "4"]%char [")"]%char
           eq_refl eq_refl eq_refl eq_refl).
Defined.

(** X13.  The name of every builtin procedure is one [IDENTIFIER] token:
    the characters of all the keys of [builtin_map], also [-], [!], [?],
    [<] and the like, are identifier characters, so a name that no
    identifier character follows is lexed whole. *)
Theorem builtin_names_are_identifiers (nm : string) (post : list ascii) :
  In nm Builtins.builtin_map_keys ->
  maximal_run is_identifier post = 0 ->
  next_token (init (list_ascii_of_string nm ++ post))
  = Some (Token IDENTIFIER (list_ascii_of_string nm) 0,
          {| buffer := list_ascii_of_string nm ++ post;
             pos := List.length (list_ascii_of_string nm) |}).
Proof.
  intros Hin Hpost.
  assert (Hall : forallb lexes_as_name Builtins.builtin_map_keys = true)
    by (vm_compute; reflexivity).
  pose proof (proj1 (forallb_forall _ _) Hall nm Hin) as Hnm.
  unfold lexes_as_name in Hnm.
  destruct (list_ascii_of_string nm) as [|c run]; [discriminate|].
  apply andb_true_iff in Hnm. destruct Hnm as [Hnm Hrun].
  apply andb_true_iff in Hnm. destruct Hnm as [Hid Hd].
  apply negb_true_iff in Hd.
  exact (identifier_forward [] c run post Hid Hd Hrun Hpost).
Qed.

(** [set-cdr!] before a blank. *)
Lemma builtin_names_are_identifiers_witness :
  next_token (init (list_ascii_of_string "set-cdr!" ++ [" "; "p"]%char))
  = Some (Token IDENTIFIER (list_ascii_of_string "set-cdr!") 0,
          {| buffer := list_ascii_of_string "set-cdr!" ++ [" "; "p"]%char;
             pos := List.length (list_ascii_of_string "set-cdr!") |}).
Proof.
  apply (builtin_names_are_identifiers "set-cdr!" [" "; "p"]%char);
    [cbn; tauto | reflexivity].
Defined.

(** X14.  A sharp sign followed by [t] or [f] is a [BOOLEAN] token of
    these two characters, whatever comes after them, and the cursor moves
    by two. *)
Theorem boolean_literal_is_two_characters
        (pre : list ascii) (c : ascii) (post : list ascii) :
  c = "t"%char \/ c = "f"%char ->
  next_token {| buffer := pre ++ "#"%char :: c :: post;
                pos := List.length pre |}
  = Some (Token BOOLEAN ["#"%char; c] (List.length pre),
          {| buffer := pre ++ "#"%char :: c :: post;
             pos := List.length pre + 2 |}).
Proof.
  intros Htf.
  set (s := {| buffer := pre ++ "#"%char :: c :: post;
               pos := List.length pre |}).
  assert (Hc : nth_error (buffer s) (pos s) = Some "#"%char)
    by apply nth_error_middle.
  assert (Hnext : nth_error (buffer s) (pos s + 1) = Some c).
  { cbn [buffer pos s]. rewrite <- (Nat.add_0_r (List.length pre + 1)).
    rewrite nth_error_past. reflexivity. }
  rewrite (next_token_unskipped s (not_skippable_char s _ Hc eq_refl eq_refl)).
  unfold token_at. cbv zeta. rewrite Hc, Hnext.
  replace (char_in (Some c) TRUE_OR_FALSE_CHARS) with true
    by (destruct Htf as [-> | ->]; reflexivity).
  change (Ascii.eqb "#" "#" && true) with true. cbv iota.
  replace (pos s + 2) with (pos s + 1 + 1) by lia.
  rewrite (slice_head s _ _ "#" Hc), (skipn_cons_nth _ _ _ Hnext).
  cbn [firstn]. unfold set_pos. cbn [buffer pos s]. do 3 f_equal. lia.
Qed.

(** The first token of [#true] is [#t]; the cursor is left at the [r]. *)
Lemma boolean_literal_is_two_characters_witness :
  next_token (lexer_of "#true")
  = Some (Token BOOLEAN ["#"; "t"]%char 0, set_pos (lexer_of "#true") 2).
Proof.
  exact (boolean_literal_is_two_characters [] "t" ["r"; "u"; "e"]%char
                                           (or_introl eq_refl)).
Defined.

(** X28.  A parenthesis or an apostrophe is a token of its own, of this
    one character, whatever stands before and after it: [LPAREN] for the
    left parenthesis, [RPAREN] for the right one, [QUOTE] for the
    apostrophe. *)
Theorem punctuation_is_one_character
        (pre : list ascii) (c : ascii) (ty : TokenTypes) (post : list ascii) :
  In (c, ty) [("("%char, LPAREN); (")"%char, RPAREN); ("'"%char, QUOTE)] ->
  next_token {| buffer := pre ++ c :: post; pos := List.length pre |}
  = Some (Token ty [c] (List.length pre),
          {| buffer := pre ++ c :: post; pos := List.length pre + 1 |}).
Proof.
  intros Hin.
  set (s := {| buffer := pre ++ c :: post; pos := List.length pre |}).
  assert (Hc : nth_error (buffer s) (pos s) = Some c)
    by apply nth_error_middle.
  assert (Hs : skippable s = false).
  { rewrite (skippable_char s c Hc). cbn in Hin.
    repeat (destruct Hin as [Hin|Hin]; [inversion Hin; reflexivity|]).
    contradiction. }
  rewrite (next_token_unskipped s Hs). unfold token_at. cbv zeta. rewrite Hc.
  cbn in Hin.
  repeat (destruct Hin as [Hin|Hin]; [inversion Hin; subst; reflexivity|]).
  contradiction.
Qed.

(** The right parenthesis of [(a)]. *)
Lemma punctuation_is_one_character_witness :
  next_token {| buffer := ["("; "a"; ")"]%char; pos := 2 |}
  = Some (Token RPAREN [")"]%char 2,
          {| buffer := ["("; "a"; ")"]%char; pos := 3 |}).
Proof.
  apply (punctuation_is_one_character ["("; "a"]%char ")" RPAREN []).
  cbn. tauto.
Defined.

End TokenizerProperties.

(** * More on the builtin procedures *)

Section MoreBuiltinProperties.
Import Py Builtins Design Reading.

Lemma values_numbers (zs : list Z) :
  values (map Num zs) = Return (map PyInt zs).
Proof.
  induction zs as [|z zs IH]; [reflexivity|].
  cbn [map values Num get_value bind]. rewrite IH. reflexivity.
Qed.

Lemma check_numbers (zs : list Z) (msg : string) :
  check_type CNumber (Tuple (map Num zs)) msg = Return tt.
Proof.
  unfold check_type.
  replace (existsb _ (map Num zs)) with false; [reflexivity|].
  symmetry. induction zs as [|z zs IH]; [reflexivity | exact IH].
Qed.

Lemma reduce_from_numbers (op : PyVal -> PyVal -> Result PyVal)
      (f : Z -> Z -> Z)
      (Hop : forall x y, op (PyInt x) (PyInt y) = Return (PyInt (f x y)))
      (zs : list Z) :
  forall acc, reduce_from op (PyInt acc) (map PyInt zs)
              = Return (PyInt (fold_left f zs acc)).
Proof.
  induction zs as [|z zs IH]; intros acc; [reflexivity|].
  cbn [map reduce_from fold_left]. rewrite Hop. cbn [bind]. apply IH.
Qed.

Lemma arithmetic_ops (nm : string) (f : Z -> Z -> Z) (u : Z -> Z) :
  In (nm, f, u) arithmetic_table ->
  exists op un,
    lookup nm builtin_map = Some (arith_op op un)
    /\ (forall x y, op (PyInt x) (PyInt y) = Return (PyInt (f x y)))
    /\ (forall x, un (PyInt x) = Return (PyInt (u x))).
Proof.
  intros H. cbn in H.
  repeat (destruct H as [H|H]; [inversion H; subst; clear H|]);
    [exists op_add, un_pos | exists op_sub, un_neg | exists op_mul, un_id
     | contradiction];
    repeat split.
Qed.

(** X15.  [+], [-] and [*] on numbers: with one number the unary
    function (the number itself, its negation for [-]); with two or more
    the operator folded from the left over the numbers in the order of the
    arguments, so [(- 10 1 2)] is 7. *)
Theorem arithmetic_folds_from_the_left
        (nm : string) (f : Z -> Z -> Z) (u : Z -> Z) :
  In (nm, f, u) arithmetic_table ->
  (forall z, apply_builtin nm [Num z] = Some (Return (Num (u z))))
  /\ (forall z1 z2 zs,
        apply_builtin nm (map Num (z1 :: z2 :: zs))
        = Some (Return (Num (fold_left f (z2 :: zs) z1)))).
Proof.
  intros Hin. destruct (arithmetic_ops nm f u Hin) as (op & un & Hl & Hop & Hun).
  unfold apply_builtin, registered. rewrite Hl. cbn [option_map].
  unfold apply. cbn [builtin_proc get_number_of_params arith_op def_star
                     params call].
  split.
  - intros z. cbn. rewrite Hun. reflexivity.
  - intros z1 z2 zs. f_equal.
    replace (List.length (map Num (z1 :: z2 :: zs)) =? 1) with false
      by (cbn [map List.length]; reflexivity).
    rewrite check_numbers. cbn [bind]. rewrite values_numbers. cbn [bind].
    change (reduce op (map PyInt (z1 :: z2 :: zs)))
      with (reduce_from op (PyInt z1) (map PyInt (z2 :: zs))).
    rewrite (reduce_from_numbers op f Hop (z2 :: zs) z1). reflexivity.
Qed.

(** [(- 10 1 2)] and [(- 5)]. *)
Lemma arithmetic_folds_from_the_left_witness :
  apply_builtin "-" [Num 5] = Some (Return (Num (-5)))
  /\ apply_builtin "-" [Num 10; Num 1; Num 2] = Some (Return (Num 7)).
Proof.
  assert (Hin : In ("-"%string, Z.sub, Z.opp) arithmetic_table)
    by (cbn; tauto).
  destruct (arithmetic_folds_from_the_left "-" Z.sub Z.opp Hin) as (H1 & Hn).
  split; [exact (H1 5%Z) | exact (Hn 10%Z 1%Z [2%Z])].
Defined.

(** X16.  [+], [-] and [*] with no argument or with two or more: an
    argument that is not a number makes them raise [ProcedureError], and
    with no argument at all they end in the [TypeError] of [reduce] on an
    empty list. *)
Theorem arithmetic_checks_its_operands
        (nm : string) (f : Z -> Z -> Z) (u : Z -> Z) :
  In (nm, f, u) arithmetic_table ->
  (forall args,
      List.length args <> 1 ->
      existsb (fun obj => negb (isinstance obj CNumber)) args = true ->
      apply_builtin nm args
      = Some (Raise (ProcedureError "Expected numbers only")))
  /\ apply_builtin nm [] = Some (Raise TypeError).
Proof.
  intros Hin. destruct (arithmetic_ops nm f u Hin) as (op & un & Hl & _ & _).
  unfold apply_builtin, registered. rewrite Hl. cbn [option_map].
  unfold apply. cbn [builtin_proc get_number_of_params arith_op def_star
                     params call].
  split; [|reflexivity].
  intros args Hlen Hbad. apply Nat.eqb_neq in Hlen. rewrite Hlen.
  unfold check_type. rewrite Hbad. reflexivity.
Qed.

(** The product of 1 and [#t], and the product of nothing. *)
Lemma arithmetic_checks_its_operands_witness :
  apply_builtin "*" [Num 1; Boolean true]
  = Some (Raise (ProcedureError "Expected numbers only"))
  /\ apply_builtin "*" [] = Some (Raise TypeError).
Proof.
  assert (Hin : In ("*"%string, Z.mul, fun x : Z => x) arithmetic_table)
    by (cbn; tauto).
  destruct (arithmetic_checks_its_operands "*" Z.mul (fun x => x) Hin)
    as (Hbad & Hnone).
  split; [|exact Hnone].
  apply Hbad; [cbn; lia | reflexivity].
Defined.

(** X17.  [quotient] and [modulo] on two numbers, the second not 0, are
    the floor division and its remainder: the dividend is the divisor
    times the quotient plus the remainder, and the remainder has the sign
    of the divisor. *)
Theorem quotient_and_modulo_round_down (a b : Z) :
  b <> 0%Z ->
  apply_builtin "quotient" [Num a; Num b] = Some (Return (Num (a / b)))
  /\ apply_builtin "modulo" [Num a; Num b] = Some (Return (Num (a mod b)))
  /\ (a = b * (a / b) + a mod b)%Z
  /\ ((0 <= a mod b < b)%Z \/ (b < a mod b <= 0)%Z).
Proof.
  intros Hb. apply Z.eqb_neq in Hb.
  unfold apply_builtin. cbn. rewrite Hb. apply Z.eqb_neq in Hb.
  repeat split.
  - apply Z.div_mod. exact Hb.
  - destruct (Z.lt_total 0 b) as [Hpos | [Hz | Hneg]].
    + left. apply Z.mod_pos_bound. exact Hpos.
    + congruence.
    + right. apply Z.mod_neg_bound. exact Hneg.
Qed.

(** [-7] by [2]: the quotient is [-4] and the remainder 1. *)
Lemma quotient_and_modulo_round_down_witness :
  apply_builtin "quotient" [Num (-7); Num 2] = Some (Return (Num (-4)))
  /\ apply_builtin "modulo" [Num (-7); Num 2] = Some (Return (Num 1)).
Proof.
  destruct (quotient_and_modulo_round_down (-7) 2) as (Hq & Hm & _);
    [discriminate|].
  split; [exact Hq | exact Hm].
Defined.

Lemma list_chain (args : list Value) :
  fold_left (fun pair el => Pair el pair) (rev args) Nil
  = fold_right Pair Nil args.
Proof.
  induction args as [|a rest IH]; [reflexivity|].
  cbn [rev fold_right]. rewrite fold_left_app. cbn [fold_left].
  rewrite IH. reflexivity.
Qed.

Lemma elements_chain (args : list Value) :
  elements (fold_right Pair Nil args) = Some args.
Proof.
  induction args as [|a rest IH]; [reflexivity|].
  cbn [fold_right elements]. rewrite IH. reflexivity.
Qed.

Lemma apply_list (args : list Value) :
  apply_builtin "list" args = Some (Return (fold_right Pair Nil args)).
Proof.
  unfold apply_builtin.
  change (registered "list")
    with (Some {| name := "list"; builtin_proc := builtin_list |}).
  cbn [option_map]. unfold apply.
  cbn [builtin_proc get_number_of_params builtin_list def_star params call].
  rewrite list_chain. reflexivity.
Qed.

(** X18.  [list] builds a proper list of its arguments, in their order:
    the elements of the chain it returns are the arguments, the chain of
    no argument is [Nil], and on the list of [a] and more arguments [car]
    is [a] and [cdr] is the list of the other arguments. *)
Theorem list_holds_its_arguments (args : list Value) :
  exists l,
    apply_builtin "list" args = Some (Return l)
    /\ elements l = Some args
    /\ (args = [] -> l = Nil)
    /\ (forall a rest,
          args = a :: rest -> is_None a = false ->
          apply_builtin "car" [l] = Some (Return a)
          /\ exists tl, apply_builtin "list" rest = Some (Return tl)
                        /\ apply_builtin "cdr" [l] = Some (Return tl)).
Proof.
  exists (fold_right Pair Nil args).
  split; [apply apply_list|].
  split; [apply elements_chain|].
  split; [intros ->; reflexivity|].
  intros a rest -> Ha. split.
  - unfold apply_builtin. cbn. rewrite Ha. reflexivity.
  - exists (fold_right Pair Nil rest). split; [apply apply_list|].
    unfold apply_builtin. cbn. rewrite Ha. reflexivity.
Qed.

(** The list of 1, 2 and 3. *)
Lemma list_holds_its_arguments_witness :
  exists l,
    apply_builtin "list" [Num 1; Num 2; Num 3] = Some (Return l)
    /\ elements l = Some [Num 1; Num 2; Num 3]
    /\ apply_builtin "car" [l] = Some (Return (Num 1)).
Proof.
  destruct (list_holds_its_arguments [Num 1; Num 2; Num 3])
    as (l & Hl & Hel & _ & Hcar).
  exists l. split; [exact Hl|]. split; [exact Hel|].
  exact (proj1 (Hcar (Num 1) [Num 2; Num 3] eq_refl eq_refl)).
Defined.

(** X19.  On a list of three or more arguments, [car], [cadr] and
    [caddr] are the first, the second and the third argument. *)
Theorem cadr_caddr_read_the_list (a b c : Value) (rest : list Value) :
  is_None a = false -> is_None b = false -> is_None c = false ->
  exists l,
    apply_builtin "list" (a :: b :: c :: rest) = Some (Return l)
    /\ apply_builtin "car" [l] = Some (Return a)
    /\ apply_builtin "cadr" [l] = Some (Return b)
    /\ apply_builtin "caddr" [l] = Some (Return c).
Proof.
  intros Ha Hb Hc. exists (fold_right Pair Nil (a :: b :: c :: rest)).
  split; [apply apply_list|].
  unfold apply_builtin. cbn. rewrite Ha, Hb, Hc. repeat split.
Qed.

(** The list of 1, 2, 3 and 4. *)
Lemma cadr_caddr_read_the_list_witness :
  exists l,
    apply_builtin "list" [Num 1; Num 2; Num 3; Num 4] = Some (Return l)
    /\ apply_builtin "car" [l] = Some (Return (Num 1))
    /\ apply_builtin "cadr" [l] = Some (Return (Num 2))
    /\ apply_builtin "caddr" [l] = Some (Return (Num 3)).
Proof.
  exact (cadr_caddr_read_the_list (Num 1) (Num 2) (Num 3) [Num 4]
                                  eq_refl eq_refl eq_refl).
Defined.

(** X20.  [not] returns [Boolean(true)] on [Boolean(false)] and
    [Boolean(false)] on every other object, [Nil] and the number 0
    included; it raises nothing. *)
Theorem not_holds_only_of_false (obj : Value) :
  (obj = Boolean false ->
   apply_builtin "not" [obj] = Some (Return (Boolean true)))
  /\ (obj <> Boolean false ->
      apply_builtin "not" [obj] = Some (Return (Boolean false))).
Proof.
  split.
  - intros ->. reflexivity.
  - intros Hne. destruct obj as [v|[|]|s|n|f sd| |]; try reflexivity.
    congruence.
Qed.

(** [not] of [#f], of the number 0 and of the empty list. *)
Lemma not_holds_only_of_false_witness :
  apply_builtin "not" [Boolean false] = Some (Return (Boolean true))
  /\ apply_builtin "not" [Num 0] = Some (Return (Boolean false))
  /\ apply_builtin "not" [Nil] = Some (Return (Boolean false)).
Proof.
  split; [|split].
  - exact (proj1 (not_holds_only_of_false (Boolean false)) eq_refl).
  - apply (proj2 (not_holds_only_of_false (Num 0))). discriminate.
  - apply (proj2 (not_holds_only_of_false Nil)). discriminate.
Defined.

(** X21.  The six class predicates raise nothing on one argument: each
    returns whether the argument is of its class; and of an expression
    object exactly one of the six is true. *)
Theorem class_predicates_partition (obj : Value) :
  Forall (fun entry =>
            apply_builtin (fst entry) [obj]
            = Some (Return (Boolean (isinstance obj (snd entry)))))
         class_predicates
  /\ (is_None obj = false ->
      List.length (filter (fun entry => isinstance obj (snd entry))
                          class_predicates) = 1).
Proof.
  split.
  - repeat constructor.
  - intros Hnone. destruct obj; try discriminate Hnone; reflexivity.
Qed.

(** Of the empty list only [null?] is true. *)
Lemma class_predicates_partition_witness :
  List.length (filter (fun entry => isinstance Nil (snd entry))
                      class_predicates) = 1.
Proof.
  exact (proj2 (class_predicates_partition Nil) eq_refl).
Defined.

(** X22.  [zero?] compares the [value] of its argument with 0: it is
    true of the number 0 only among the numbers, it is true of
    [Boolean(false)] as well, and false of every string. *)
Theorem zero_compares_the_value (z : Z) (b : bool) (s : string) :
  apply_builtin "zero?" [Num z] = Some (Return (Boolean (z =? 0)%Z))
  /\ apply_builtin "zero?" [Boolean b] = Some (Return (Boolean (negb b)))
  /\ apply_builtin "zero?" [String s] = Some (Return (Boolean false)).
Proof.
  split; [reflexivity|]. split; [destruct b; reflexivity | reflexivity].
Qed.

(** X23.  [string-length] returns the number of characters of a string,
    and raises [ProcedureError] on an object that is not a string. *)
Theorem string_length_counts (obj : Value) :
  (forall s, obj = String s ->
             apply_builtin "string-length" [obj]
             = Some (Return (Num (Z.of_nat (String.length s)))))
  /\ (isinstance obj CString = false ->
      apply_builtin "string-length" [obj]
      = Some (Raise (ProcedureError "Expected string."))).
Proof.
  split.
  - intros s ->. reflexivity.
  - intros H. destruct obj; try discriminate H; reflexivity.
Qed.

(** The length of [abc], and of the number 3. *)
Lemma string_length_counts_witness :
  apply_builtin "string-length" [String "abc"] = Some (Return (Num 3))
  /\ apply_builtin "string-length" [Num 3]
     = Some (Raise (ProcedureError "Expected string.")).
Proof.
  split.
  - exact (proj1 (string_length_counts (String "abc")) "abc"%string eq_refl).
  - exact (proj2 (string_length_counts (Num 3)) eq_refl).
Defined.

End MoreBuiltinProperties.

(** * Pairs as shared objects *)

Section StoreProperties.
Import Py Store.

Lemma write_length (h : Heap) :
  forall id c, List.length (write h id c) = List.length h.
Proof.
  induction h as [|c0 h IH]; intros [|id] c; cbn; try reflexivity.
  rewrite IH. reflexivity.
Qed.

Lemma write_same (h : Heap) :
  forall id c, id < List.length h -> nth_error (write h id c) id = Some c.
Proof.
  induction h as [|c0 h IH]; intros [|id] c Hid; cbn in *; try lia.
  - reflexivity.
  - apply IH. lia.
Qed.

Lemma write_other (h : Heap) :
  forall id c j, j <> id -> nth_error (write h id c) j = nth_error h j.
Proof.
  induction h as [|c0 h IH]; intros [|id] c [|j] Hj; cbn; try reflexivity.
  - congruence.
  - apply IH. congruence.
Qed.

(** X24.  [set-car!] writes into the pair itself: it returns the pair it
    was given, makes no new pair, leaves the [second] slot and every other
    pair as they were, and [car] of the pair, through any reference to it,
    is the new object from then on.  On an object that is not a pair it
    raises [ProcedureError] and writes nothing. *)
Theorem set_car_is_seen_by_every_holder (h : Heap) (id : nat) (obj : Obj) :
  id < List.length h -> is_None obj = false ->
  let h' := snd (builtin_set_car h (Pair id) obj) in
  fst (builtin_set_car h (Pair id) obj) = Returns (Pair id)
  /\ List.length h' = List.length h
  /\ builtin_car h' (Pair id) = (Returns obj, h')
  /\ (forall c, nth_error h id = Some c ->
                nth_error h' id = Some {| first := obj; second := second c |})
  /\ (forall j, j <> id -> nth_error h' j = nth_error h j)
  /\ (forall p, is_Pair p = false ->
                builtin_set_car h p obj
                = (Raises (ProcedureError "Expected pair or list."), h)).
Proof.
  intros Hid Hobj h'. subst h'. unfold builtin_set_car. cbn [check_Pair is_Pair negb].
  destruct (nth_error h id) as [c|] eqn:Hc.
  2:{ apply nth_error_None in Hc. lia. }
  cbn [fst snd]. repeat split.
  - apply write_length.
  - unfold builtin_car. cbn [check_Pair is_Pair negb].
    rewrite (write_same h id _ Hid). cbn [with_first first]. rewrite Hobj.
    reflexivity.
  - intros c' Hc'. injection Hc' as <-. apply write_same. exact Hid.
  - intros j Hj. apply write_other. exact Hj.
  - intros p Hp. unfold check_Pair. rewrite Hp. reflexivity.
Qed.

(** A list of two pairs, the first of which is given a new head. *)
Lemma set_car_is_seen_by_every_holder_witness :
  let h := [{| first := Number (PyInt 1); second := Pair 1 |};
            {| first := Number (PyInt 2); second := Nil |}] in
  let h' := snd (builtin_set_car h (Pair 1) (Number (PyInt 9))) in
  builtin_car h' (Pair 1) = (Returns (Number (PyInt 9)), h')
  /\ nth_error h' 0 = nth_error h 0.
Proof.
  intros h h'.
  destruct (set_car_is_seen_by_every_holder h 1 (Number (PyInt 9)))
    as (_ & _ & Hcar & _ & Hother & _); [cbn; lia | reflexivity |].
  split; [exact Hcar | apply Hother; discriminate].
Defined.

(** X25.  [set-cdr!] writes into the pair itself: it returns the pair it
    was given, makes no new pair, leaves the [first] slot and every other
    pair as they were, and [cdr] of the pair is the new object from then
    on, also when that object is the pair itself, which then is its own
    tail.  On an object that is not a pair it raises [ProcedureError] and
    writes nothing. *)
Theorem set_cdr_is_seen_by_every_holder
        (h : Heap) (id : nat) (c : Cell) (obj : Obj) :
  nth_error h id = Some c -> is_None (first c) = false ->
  let h' := snd (builtin_set_cdr h (Pair id) obj) in
  fst (builtin_set_cdr h (Pair id) obj) = Returns (Pair id)
  /\ List.length h' = List.length h
  /\ builtin_cdr h' (Pair id) = (Returns obj, h')
  /\ builtin_car h' (Pair id) = (Returns (first c), h')
  /\ (forall j, j <> id -> nth_error h' j = nth_error h j)
  /\ (forall p, is_Pair p = false ->
                builtin_set_cdr h p obj
                = (Raises (ProcedureError "Expected pair or list."), h)).
Proof.
  intros Hc Hfirst h'. subst h'.
  assert (Hid : id < List.length h) by (apply nth_error_Some; congruence).
  unfold builtin_set_cdr. cbn [check_Pair is_Pair negb]. rewrite Hc.
  cbn [fst snd]. repeat split.
  - apply write_length.
  - unfold builtin_cdr. cbn [check_Pair is_Pair negb].
    rewrite (write_same h id _ Hid). cbn [with_second first second].
    rewrite Hfirst. reflexivity.
  - unfold builtin_car. cbn [check_Pair is_Pair negb].
    rewrite (write_same h id _ Hid). cbn [with_second first second].
    rewrite Hfirst. reflexivity.
  - intros j Hj. apply write_other. exact Hj.
  - intros p Hp. unfold check_Pair. rewrite Hp. reflexivity.
Qed.

(** A pair made its own tail. *)
Lemma set_cdr_is_seen_by_every_holder_witness :
  let h := [{| first := Number (PyInt 1); second := Nil |}] in
  let h' := snd (builtin_set_cdr h (Pair 0) (Pair 0)) in
  builtin_cdr h' (Pair 0) = (Returns (Pair 0), h')
  /\ builtin_car h' (Pair 0) = (Returns (Number (PyInt 1)), h').
Proof.
  intros h h'.
  destruct (set_cdr_is_seen_by_every_holder
              h 0 {| first := Number (PyInt 1); second := Nil |} (Pair 0)
              eq_refl eq_refl)
    as (_ & _ & Hcdr & Hcar & _).
  split; [exact Hcdr | exact Hcar].
Defined.

(** X26.  [eqv?] on two pairs compares what they are, not what they
    hold: it is true of two references to one pair and false of two pairs
    made by two calls of [cons] with the same arguments.  It writes
    nothing, reads its first two arguments only, and with fewer than two
    it ends in [IndexError]. *)
Theorem eqv_on_pairs_is_identity (h : Heap) (a b : Obj) :
  (forall i j, builtin_eqv h [Pair i; Pair j]
               = (Returns (Boolean (i =? j)), h))
  /\ (forall p1 h1 p2 h2,
        builtin_cons h a b = (Returns p1, h1) ->
        builtin_cons h1 a b = (Returns p2, h2) ->
        builtin_eqv h2 [p1; p2] = (Returns (Boolean false), h2)
        /\ builtin_eqv h2 [p1; p1] = (Returns (Boolean true), h2)
        /\ builtin_eqv h2 [p2; p2] = (Returns (Boolean true), h2))
  /\ (forall x y extra, builtin_eqv h (x :: y :: extra) = builtin_eqv h [x; y])
  /\ (forall x, builtin_eqv h [x] = (RaisesIndexError, h))
  /\ builtin_eqv h [] = (RaisesIndexError, h).
Proof.
  split; [reflexivity|]. split; [|repeat split].
  intros p1 h1 p2 h2 H1 H2. unfold builtin_cons in *.
  injection H1 as <- <-. injection H2 as <- <-.
  cbn [builtin_eqv]. rewrite length_app. cbn [List.length].
  rewrite !Nat.eqb_refl.
  replace (List.length h =? List.length h + 1) with false
    by (symmetry; apply Nat.eqb_neq; lia).
  repeat split.
Qed.

(** Two pairs of 1 and 2 in an empty store. *)
Lemma eqv_on_pairs_is_identity_witness :
  let h2 := [{| first := Number (PyInt 1); second := Number (PyInt 2) |};
             {| first := Number (PyInt 1); second := Number (PyInt 2) |}] in
  builtin_eqv h2 [Pair 0; Pair 1] = (Returns (Boolean false), h2)
  /\ builtin_eqv h2 [Pair 0; Pair 0] = (Returns (Boolean true), h2).
Proof.
  intros h2.
  destruct (proj1 (proj2 (eqv_on_pairs_is_identity
                            [] (Number (PyInt 1)) (Number (PyInt 2))))
                  (Pair 0) [{| first := Number (PyInt 1);
                               second := Number (PyInt 2) |}]
                  (Pair 1) h2 eq_refl eq_refl)
    as (Hne & Heq & _).
  split; [exact Hne | exact Heq].
Defined.

(** X27.  [cons] makes a new pair and changes no pair there is: [car]
    and [cdr] of the new pair are the two arguments, themselves and not
    copies when they are pairs, and every pair of the store before is as
    it was. *)
Theorem cons_makes_a_new_pair (h : Heap) (obj1 obj2 : Obj) :
  is_None obj1 = false ->
  exists id,
    let h' := h ++ [{| first := obj1; second := obj2 |}] in
    builtin_cons h obj1 obj2 = (Returns (Pair id), h')
    /\ nth_error h id = None
    /\ builtin_car h' (Pair id) = (Returns obj1, h')
    /\ builtin_cdr h' (Pair id) = (Returns obj2, h')
    /\ (forall j, j < List.length h -> nth_error h' j = nth_error h j).
Proof.
  intros Hobj. exists (List.length h). cbv zeta.
  split; [reflexivity|].
  split; [apply nth_error_None; lia|].
  unfold builtin_car, builtin_cdr. cbn [check_Pair is_Pair negb].
  rewrite nth_error_app2 by lia. rewrite Nat.sub_diag.
  cbn [nth_error first second]. rewrite Hobj.
  repeat split. intros j Hj. apply nth_error_app1. exact Hj.
Qed.

(** A pair whose tail is the one pair of the store. *)
Lemma cons_makes_a_new_pair_witness :
  exists id,
    let h := [{| first := Number (PyInt 2); second := Nil |}] in
    let h' := h ++ [{| first := Number (PyInt 1); second := Pair 0 |}] in
    builtin_cons h (Number (PyInt 1)) (Pair 0) = (Returns (Pair id), h')
    /\ builtin_cdr h' (Pair id) = (Returns (Pair 0), h').
Proof.
  destruct (cons_makes_a_new_pair
              [{| first := Number (PyInt 2); second := Nil |}]
              (Number (PyInt 1)) (Pair 0) eq_refl)
    as (id & Hcons & _ & _ & Hcdr & _).
  exists id. split; [exact Hcons | exact Hcdr].
Defined.

End StoreProperties.
